(** * The offline caching layer of the lodge web site (service worker)

    A shallow embedding of the service worker script: the request
    classifier ([isApiRequest], [isStaticAsset], the branches of the fetch
    listener), the three strategies ([handleApiRequest], [handleStaticAsset],
    [handleNavigation]), the background refresh ([updateCacheInBackground])
    and the install listener, together with a small operational model of
    the host (cache storage, network, suspension points of async
    functions) on which they run. *)

From Stdlib Require Import String Ascii ZArith List Bool Lia.
From stdpp Require Import base decidable countable gmap strings fin_maps.
Import ListNotations.

Local Open Scope string_scope.
Local Open Scope Z_scope.

(** ** Configuration constants of the worker *)

Definition CACHE_NAME : string := "radlett-lodge-v1".
Definition API_CACHE_NAME : string := "radlett-lodge-api-v1".
Definition STATIC_CACHE_NAME : string := "radlett-lodge-static-v1".

Definition urlsToCache : list string :=
  [ "/";
    "/src/main.tsx";
    "/src/index.css";
    "https://fonts.googleapis.com/css2?family=Open+Sans:wght@400;500;600&family=Playfair+Display:wght@400;600;700&display=swap" ].

Definition API_ENDPOINTS : list string :=
  [ "/api/documents";
    "/api/members";
    "/api/minutes";
    "/api/events";
    "/api/news" ].

(** ** String helpers used by the classifier *)

Module Str.

(** [startsWith pat s]: [s] begins with [pat]. *)
Fixpoint startsWith (pat s : string) : bool :=
  match pat, s with
  | EmptyString, _ => true
  | String _ _, EmptyString => false
  | String a pat', String b s' => (Ascii.eqb a b && startsWith pat' s')%bool
  end.

(** JavaScript's [s.includes(pat)]: [pat] occurs somewhere in [s]. *)
Fixpoint includes (s pat : string) : bool :=
  (startsWith pat s ||
   match s with
   | EmptyString => false
   | String _ s' => includes s' pat
   end)%bool.

(** [endsWith s suf]: some tail of [s] is exactly [suf]; this is what a
    pattern anchored by [$] tests. *)
Fixpoint endsWith (s suf : string) : bool :=
  (String.eqb s suf ||
   match s with
   | EmptyString => false
   | String _ s' => endsWith s' suf
   end)%bool.

End Str.

(** ** Request classifier *)

Definition isApiRequest (pathname : string) : bool :=
  (existsb (fun endpoint => Str.includes pathname endpoint) API_ENDPOINTS
   || Str.includes pathname "/functions/v1/")%bool.

(** The alternatives of the pattern [\.(js|css|...)$], dot included. *)
Definition STATIC_EXTENSIONS : list string :=
  [ ".js"; ".css"; ".png"; ".jpg"; ".jpeg"; ".gif"; ".svg";
    ".woff"; ".woff2"; ".ttf"; ".eot"; ".ico" ].

Definition isStaticAsset (pathname : string) : bool :=
  existsb (fun ext => Str.endsWith pathname ext) STATIC_EXTENSIONS.

Inductive Category : Type := Api | StaticAsset | Navigation.

(** The [if / else if / else] of the fetch listener. *)
Definition classify (pathname : string) : Category :=
  if isApiRequest pathname then Api
  else if isStaticAsset pathname then StaticAsset
  else Navigation.

(** ** Requests, responses and JavaScript values *)

Record Request : Type := mkRequest { method : string; url : string }.

Record Response : Type := mkResponse { status : Z; body : string }.

(** [response.ok]: the status is in the range 200..299. *)
Definition ok (r : Response) : bool := (200 <=? status r) && (status r <=? 299).

(** [response.clone()] yields a response with the same status and body. *)
Definition clone (r : Response) : Response := r.

(** What a rejected promise carries. *)
Inductive Error : Type := TypeError (msg : string).

(** The outcome of one network fetch: a response (of any status) or a
    rejection. *)
Inductive FetchResult : Type :=
| NetOk (r : Response)
| NetErr (e : Error).

(** A promise that was obtained by calling [cache.match] and that nobody
    has awaited yet. *)
Inductive Pending : Type := MatchCall (cacheName : string) (key : Request).

(** The values the handlers compute with. *)
Inductive Value : Type :=
| VUndefined
| VResponse (r : Response)
| VPromise (p : Pending).

(** JavaScript truthiness: [undefined] is falsy, every object (a response,
    a promise) is truthy. *)
Definition truthy (v : Value) : bool :=
  match v with
  | VUndefined => false
  | VResponse _ => true
  | VPromise _ => true
  end.

(** [a || b] *)
Definition js_or (a b : Value) : Value := if truthy a then a else b.

#[global] Instance Request_eq_dec : EqDecision Request.
Proof. solve_decision. Defined.

#[global] Instance Request_countable : Countable Request.
Proof.
  refine (inj_countable' (fun r => (method r, url r))
                         (fun p => mkRequest (fst p) (snd p)) _).
  intros []; reflexivity.
Defined.

#[global] Instance Response_eq_dec : EqDecision Response.
Proof. solve_decision. Defined.

(** ** Cache storage

    A cache partition maps a request (method and URL) to the response last
    stored under it; the cache storage maps partition names to
    partitions. *)

Abbreviation Cache := (gmap Request Response).
Abbreviation CacheStorage := (gmap string (gmap Request Response)).

(** [caches.open(name)]: open-or-create. *)
Definition caches_open (name : string) (cs : CacheStorage) : CacheStorage :=
  match cs !! name with
  | Some _ => cs
  | None => <[name := (∅ : Cache)]> cs
  end.

(** The entry stored under [key] in the partition called [name], whatever
    the key is. *)
Definition cache_entry (name : string) (key : Request) (cs : CacheStorage)
  : option Response :=
  match cs !! name with
  | Some c => c !! key
  | None => None
  end.

(** [cache.match(key)] on the partition called [name]: a request that is
    not a GET matches nothing. *)
Definition cache_match (name : string) (key : Request) (cs : CacheStorage)
  : option Response :=
  if String.eqb (method key) "GET" then cache_entry name key cs else None.

(** What [cache.put] accepts: the request is a GET and the status of the
    response is not 206; anything else makes its promise reject. *)
Definition put_accepts (key : Request) (r : Response) : bool :=
  String.eqb (method key) "GET" && negb (status r =? 206).

(** The entry under [key] of the partition called [name] is created or
    overwritten. *)
Definition cache_store (name : string) (key : Request) (r : Response)
  (cs : CacheStorage) : CacheStorage :=
  <[name := <[key := r]> (default (∅ : Cache) (cs !! name))]> cs.

(** The effect of [cache.put(key, r)] on the partition called [name]: the
    entry is stored when the put is accepted, nothing changes when it is
    refused. *)
Definition cache_put (name : string) (key : Request) (r : Response)
  (cs : CacheStorage) : CacheStorage :=
  if put_accepts key r then cache_store name key r cs else cs.

(** ** Programs

    The body of an async function, as the tree of its host operations.
    [Await...] nodes are suspension points; [Put] and [Call] start an
    operation whose promise is dropped. *)

Inductive prog : Type :=
| Ret (v : Value)
| Throw (e : Error)
| CachesOpen (name : string) (k : prog)
| AwaitMatch (name : string) (key : Request) (k : option Response -> prog)
| AwaitFetch (request : Request) (k : FetchResult -> prog)
| Put (name : string) (key : Request) (r : Response) (k : prog)
| Call (task : prog) (k : prog)
| AwaitAddAll (name : string) (urls : list string) (k : option Error -> prog)
| ConsoleLog (msg : string) (k : prog).

(** ** The worker's functions *)

(** [updateCacheInBackground(request, cache)], where [cache] is the api
    partition. *)
Definition updateCacheInBackground (request : Request) (cacheName : string) : prog :=
  AwaitFetch request (fun res =>
    match res with
    | NetOk networkResponse =>
        if ok networkResponse
        then Put cacheName request (clone networkResponse) (Ret VUndefined)
        else Ret VUndefined
    | NetErr _ =>
        ConsoleLog "Background cache update failed:" (Ret VUndefined)
    end).

(** The [try { ... } catch] part of [handleApiRequest]. *)
Definition fetchFromNetwork (request : Request) : prog :=
  AwaitFetch request (fun res =>
    match res with
    | NetOk networkResponse =>
        if String.eqb (method request) "GET" && ok networkResponse
        then Put API_CACHE_NAME request (clone networkResponse)
               (Ret (VResponse networkResponse))
        else Ret (VResponse networkResponse)
    | NetErr error =>
        AwaitMatch API_CACHE_NAME request (fun cachedResponse =>
          match cachedResponse with
          | Some c => Ret (VResponse c)
          | None => Throw error
          end)
    end).

Definition handleApiRequest (request : Request) : prog :=
  CachesOpen API_CACHE_NAME
    (if String.eqb (method request) "GET"
     then
       AwaitMatch API_CACHE_NAME request (fun cachedResponse =>
         match cachedResponse with
         | Some c =>
             Call (updateCacheInBackground request API_CACHE_NAME)
                  (Ret (VResponse c))
         | None => fetchFromNetwork request
         end)
     else fetchFromNetwork request).

Definition handleStaticAsset (request : Request) : prog :=
  CachesOpen STATIC_CACHE_NAME
    (AwaitMatch STATIC_CACHE_NAME request (fun cachedResponse =>
       match cachedResponse with
       | Some c => Ret (VResponse c)
       | None =>
           AwaitFetch request (fun res =>
             match res with
             | NetOk networkResponse =>
                 if ok networkResponse
                 then Put STATIC_CACHE_NAME request (clone networkResponse)
                        (Ret (VResponse networkResponse))
                 else Ret (VResponse networkResponse)
             | NetErr error => Throw error
             end)
       end)).

(** The request that [cache.match('/')] looks up. *)
Definition rootRequest : Request := mkRequest "GET" "/".

Definition offlineResponse : Response := mkResponse 503 "Offline".

Definition handleNavigation (request : Request) : prog :=
  AwaitFetch request (fun res =>
    match res with
    | NetOk networkResponse => Ret (VResponse networkResponse)
    | NetErr _ =>
        CachesOpen STATIC_CACHE_NAME
          (Ret (js_or (VPromise (MatchCall STATIC_CACHE_NAME rootRequest))
                      (VResponse offlineResponse)))
    end).

(** The fetch listener; [pathname] is [new URL(request.url).pathname]. *)
Definition onFetch (pathname : string) (request : Request) : prog :=
  match classify pathname with
  | Api => handleApiRequest request
  | StaticAsset => handleStaticAsset request
  | Navigation => handleNavigation request
  end.

(** The install listener: both partitions are opened, the static one is
    filled with the manifest. *)
Definition onInstall : prog :=
  CachesOpen STATIC_CACHE_NAME
    (CachesOpen API_CACHE_NAME
       (AwaitAddAll STATIC_CACHE_NAME urlsToCache (fun res =>
          match res with
          | None => Ret VUndefined
          | Some e => Throw e
          end))).

(** ** The host: events, worlds and the execution of programs *)

(** Who performs an operation: the handler whose promise the caller (the
    page, through [respondWith] or [waitUntil]) waits on, or a task that
    was called without being awaited. *)
Inductive Task : Type := Handler | Detached.

Inductive Event : Type :=
| EvOpen (name : string)
| EvMatch (name : string) (key : Request) (found : option Response)
| EvFetch (id : nat) (request : Request)        (* network call issued *)
| EvSettle (id : nat) (res : FetchResult)       (* its awaiter resumed *)
| EvPut (name : string) (key : Request) (r : Response)      (* cache.put called *)
| EvStored (name : string) (key : Request) (r : Response)   (* the entry written *)
| EvRefused (name : string) (key : Request) (r : Response)  (* the put rejected *)
| EvLog (msg : string)
| EvReturn (v : Value)                          (* the task's promise resolved *)
| EvThrow (e : Error).                          (* the task's promise rejected *)

Record World : Type := mkWorld {
  storage : CacheStorage;
  calls : nat;                   (* network calls issued so far *)
  clock : nat;                   (* suspension points passed so far *)
  trace : list (Task * Event)    (* oldest event first *)
}.

Inductive Outcome : Type :=
| Returned (v : Value)
| Threw (e : Error).

(** What the other tasks of the worker do to the cache storage while a task
    is suspended, by suspension point. *)
Definition Env : Type := nat -> CacheStorage -> CacheStorage.

(** The answer of the network to the [id]-th call. *)
Definition Net : Type := nat -> Request -> FetchResult.

(** Whether the cache storage operation that completes at a suspension
    point fails (quota, storage gone), and with what. *)
Definition Disk : Type := nat -> option Error.

Definition quiet : Env := fun _ cs => cs.

(** A cache storage whose operations never fail. *)
Definition reliable : Disk := fun _ => None.

Definition emit (who : Task) (ev : Event) (w : World) : World :=
  mkWorld (storage w) (calls w) (clock w) (trace w ++ [(who, ev)]).

Definition with_storage (f : CacheStorage -> CacheStorage) (w : World) : World :=
  mkWorld (f (storage w)) (calls w) (clock w) (trace w).

(** What [cache.addAll] accepts of an answer: an ok status other than
    206. *)
Definition addAll_accepts (r : Response) : bool :=
  ok r && negb (status r =? 206).

(** Every response in the list of results, provided all are there and
    accepted. *)
Fixpoint all_ok (results : list FetchResult) : option (list Response) :=
  match results with
  | [] => Some []
  | NetOk r :: rest =>
      if addAll_accepts r
      then match all_ok rest with
           | Some rs => Some (r :: rs)
           | None => None
           end
      else None
  | NetErr _ :: _ => None
  end.

Section Host.

Variable disk : Disk.
Variable env : Env.
Variable net : Net.

(** The task is suspended: the others run. *)
Definition suspend (w : World) : World :=
  mkWorld (env (clock w) (storage w)) (calls w) (S (clock w)) (trace w).

(** [await caches.open(name)]: the partition is there afterwards, unless
    the storage fails. *)
Definition do_open (who : Task) (name : string) (w : World)
  : option Error * World :=
  let w1 := suspend w in
  match disk (clock w) with
  | Some e => (Some e, w1)
  | None => (None, emit who (EvOpen name) (with_storage (caches_open name) w1))
  end.

(** [cache.match(key)] awaited: what the partition answers, unless the
    storage fails. *)
Definition do_match (who : Task) (name : string) (key : Request) (w : World)
  : (Error + option Response) * World :=
  let w1 := suspend w in
  match disk (clock w) with
  | Some e => (inl e, w1)
  | None =>
      let found := cache_match name key (storage w1) in
      (inr found, emit who (EvMatch name key found) w1)
  end.

(** [fetch(request)] is called: the network call leaves at once. *)
Definition do_issue (who : Task) (request : Request) (w : World) : nat * World :=
  (calls w,
   emit who (EvFetch (calls w) request)
     (mkWorld (storage w) (S (calls w)) (clock w) (trace w))).

(** The awaiting task is resumed with the answer to call [id]. *)
Definition do_settle (who : Task) (id : nat) (request : Request) (w : World)
  : FetchResult * World :=
  let res := net id request in
  (res, emit who (EvSettle id res) (suspend w)).

(** [cache.put(key, r)] is called and its promise dropped: nothing is
    written yet. *)
Definition call_put (who : Task) (name : string) (key : Request) (r : Response)
  (w : World) : World :=
  emit who (EvPut name key r) w.

(** A put that was called completes, after the task that called it has
    gone on: the entry is written if the put is accepted and the storage
    does not fail; otherwise the dropped promise rejects and nothing is
    written. *)
Definition complete_put (who : Task) (name : string) (key : Request)
  (r : Response) (w : World) : World :=
  let w1 := suspend w in
  match disk (clock w) with
  | Some _ => emit who (EvRefused name key r) w1
  | None =>
      if put_accepts key r
      then emit who (EvStored name key r)
             (with_storage (cache_put name key r) w1)
      else emit who (EvRefused name key r) w1
  end.

(** An async function returns [v]: a promise is followed to its value, or
    to its rejection. *)
Definition resolve (who : Task) (v : Value) (w : World) : (Error + Value) * World :=
  match v with
  | VPromise (MatchCall name key) =>
      match do_match who name key w with
      | (inl e, w1) => (inl e, w1)
      | (inr found, w1) =>
          (inr match found with Some r => VResponse r | None => VUndefined end,
           w1)
      end
  | _ => (inr v, w)
  end.

(** The promise of the task rejects. *)
Definition reject (who : Task) (e : Error) (w : World)
  : Outcome * World * (World -> World) :=
  (Threw e, emit who (EvThrow e) w, fun w' => w').

(** [cache.addAll(urls)] of the host: every URL is requested with GET;
    unless every answer is there and accepted the promise rejects and
    nothing is stored, otherwise each response is stored under its request
    before the promise resolves. *)
Fixpoint issue_all (who : Task) (reqs : list Request) (w : World)
  : list (nat * Request) * World :=
  match reqs with
  | [] => ([], w)
  | r :: rest =>
      let '(id, w1) := do_issue who r w in
      let '(ids, w2) := issue_all who rest w1 in
      ((id, r) :: ids, w2)
  end.

Fixpoint log_settled (who : Task) (ids : list (nat * Request)) (w : World) : World :=
  match ids with
  | [] => w
  | (id, r) :: rest => log_settled who rest (emit who (EvSettle id (net id r)) w)
  end.

Fixpoint put_all (who : Task) (name : string) (entries : list (Request * Response))
  (w : World) : World :=
  match entries with
  | [] => w
  | (key, r) :: rest =>
      put_all who name rest
        (emit who (EvStored name key r) (with_storage (cache_put name key r) w))
  end.

Definition addAll_start (who : Task) (urls : list string) (w : World)
  : list (nat * Request) * World :=
  issue_all who (map (mkRequest "GET") urls) w.

Definition addAll_finish (who : Task) (name : string) (ids : list (nat * Request))
  (w : World) : option Error * World :=
  let w1 := log_settled who ids (suspend w) in
  match disk (clock w) with
  | Some e => (Some e, w1)
  | None =>
      match all_ok (map (fun '(id, r) => net id r) ids) with
      | Some resps => (None, put_all who name (combine (map snd ids) resps) w1)
      | None => (Some (TypeError "Request failed"), w1)
      end
  end.

Definition do_addAll (who : Task) (name : string) (urls : list string) (w : World)
  : option Error * World :=
  let '(ids, w1) := addAll_start who urls w in
  addAll_finish who name ids w1.

(** [exec who p w] runs [p] until its promise settles: the outcome, the
    world at that moment, and what is still to happen afterwards (the puts
    it called and the tasks it called without awaiting them). A storage
    operation that the task awaits and that fails rejects the promise of
    the task: no function of the worker catches such a failure.
    [launch t w] is the call of an async function whose promise is
    dropped: [t] runs up to its first suspension point, the rest is left
    for later. *)
Fixpoint exec (who : Task) (p : prog) (w : World)
  : Outcome * World * (World -> World) :=
  match p with
  | Ret v =>
      match resolve who v w with
      | (inr v', w1) => (Returned v', emit who (EvReturn v') w1, fun w' => w')
      | (inl e, w1) => reject who e w1
      end
  | Throw e => reject who e w
  | CachesOpen name k =>
      match do_open who name w with
      | (None, w1) => exec who k w1
      | (Some e, w1) => reject who e w1
      end
  | AwaitMatch name key k =>
      match do_match who name key w with
      | (inr found, w1) => exec who (k found) w1
      | (inl e, w1) => reject who e w1
      end
  | AwaitFetch request k =>
      let '(id, w1) := do_issue who request w in
      let '(res, w2) := do_settle who id request w1 in
      exec who (k res) w2
  | Put name key r k =>
      let '(o, w1, later_k) := exec who k (call_put who name key r w) in
      (o, w1, fun w' => later_k (complete_put who name key r w'))
  | Call t k =>
      let '(w1, later_t) := launch t w in
      let '(o, w2, later_k) := exec who k w1 in
      (o, w2, fun w' => later_k (later_t w'))
  | AwaitAddAll name urls k =>
      let '(res, w1) := do_addAll who name urls w in
      exec who (k res) w1
  | ConsoleLog msg k => exec who k (emit who (EvLog msg) w)
  end
with launch (t : prog) (w : World) : World * (World -> World) :=
  let finish := fun (r : Outcome * World * (World -> World)) =>
                  let '(_, w1, later) := r in later w1 in
  match t with
  | Ret v =>
      match v with
      | VPromise _ =>
          (w, fun w' =>
                match resolve Detached v w' with
                | (inr v', w1) => emit Detached (EvReturn v') w1
                | (inl e, w1) => emit Detached (EvThrow e) w1
                end)
      | _ => (emit Detached (EvReturn v) w, fun w' => w')
      end
  | Throw e => (emit Detached (EvThrow e) w, fun w' => w')
  | CachesOpen name k =>
      (w, fun w' =>
            match do_open Detached name w' with
            | (None, w1) => finish (exec Detached k w1)
            | (Some e, w1) => emit Detached (EvThrow e) w1
            end)
  | AwaitMatch name key k =>
      (w, fun w' =>
            match do_match Detached name key w' with
            | (inr found, w1) => finish (exec Detached (k found) w1)
            | (inl e, w1) => emit Detached (EvThrow e) w1
            end)
  | AwaitFetch request k =>
      let '(id, w1) := do_issue Detached request w in
      (w1, fun w' =>
             let '(res, w2) := do_settle Detached id request w' in
             finish (exec Detached (k res) w2))
  | Put name key r k =>
      let '(w1, later_k) := launch k (call_put Detached name key r w) in
      (w1, fun w' => later_k (complete_put Detached name key r w'))
  | Call t' k =>
      let '(w1, later_t) := launch t' w in
      let '(w2, later_k) := launch k w1 in
      (w2, fun w' => later_k (later_t w'))
  | AwaitAddAll name urls k =>
      let '(ids, w1) := addAll_start Detached urls w in
      (w1, fun w' =>
             let '(res, w2) := addAll_finish Detached name ids w' in
             finish (exec Detached (k res) w2))
  | ConsoleLog msg k => launch k (emit Detached (EvLog msg) w)
  end.

End Host.

(** ** Serving one event *)

Record Run : Type := mkRun {
  outcome : Outcome;     (* how the handler's promise settled *)
  at_return : World;     (* the world at that moment *)
  final : World          (* the world once the detached tasks are done too *)
}.

(** Serving from the world [w], on a cache storage that may fail. *)
Definition serve_on (disk : Disk) (env : Env) (net : Net) (p : prog) (w : World)
  : Run :=
  let '(o, w1, later) := exec disk env net Handler p w in
  mkRun o w1 (later w1).

(** Serving from the world [w], the cache storage being reliable. *)
Definition serve_from (env : Env) (net : Net) (p : prog) (w : World) : Run :=
  serve_on reliable env net p w.

(** A worker that starts on the cache storage [cs]. *)
Definition boot (cs : CacheStorage) : World := mkWorld cs 0 0 [].

Definition serve (env : Env) (net : Net) (p : prog) (cs : CacheStorage) : Run :=
  serve_from env net p (boot cs).

(** The other tasks leave the entry under [key] of partition [name] as it
    is: they neither add, replace nor remove it. *)
Definition untouched (env : Env) (name : string) (key : Request) : Prop :=
  forall t cs, cache_match name key (env t cs) = cache_match name key cs.

(** ** Reading traces *)

Definition is_read (ev : Event) : bool :=
  match ev with EvMatch _ _ _ => true | _ => false end.

Definition is_network (ev : Event) : bool :=
  match ev with EvFetch _ _ => true | _ => false end.

Definition is_put (ev : Event) : bool :=
  match ev with EvPut _ _ _ => true | _ => false end.

Definition is_settle (ev : Event) : bool :=
  match ev with EvSettle _ _ => true | _ => false end.

(** No call of [cache.put] at all in the trace. *)
Definition no_put (tr : list (Task * Event)) : bool :=
  forallb (fun te => negb (is_put (snd te))) tr.

(** No cache lookup at all in the trace. *)
Definition no_read (tr : list (Task * Event)) : bool :=
  forallb (fun te => negb (is_read (snd te))) tr.

(** Going through the trace from the start, a cache read comes before the
    first network call (or there is no network call at all). *)
Fixpoint read_before_network (tr : list (Task * Event)) : bool :=
  match tr with
  | [] => true
  | (_, ev) :: rest =>
      if is_read ev then true
      else if is_network ev then false
      else read_before_network rest
  end.

(** Going through the trace from the start, the handler's promise settles
    before any write by a detached task. *)
Fixpoint settled_before_refresh_write (tr : list (Task * Event)) : bool :=
  match tr with
  | [] => true
  | (Handler, EvReturn _) :: _ => true
  | (Handler, EvThrow _) :: _ => true
  | (Detached, EvPut _ _ _) :: _ => false
  | (Detached, EvStored _ _ _) :: _ => false
  | _ :: rest => settled_before_refresh_write rest
  end.

(** The answers of the network to calls number [c], [c+1], ... for a batch
    of requests issued together. *)
Fixpoint answers (net : Net) (c : nat) (reqs : list Request) : list FetchResult :=
  match reqs with
  | [] => []
  | r :: rest => net c r :: answers net (S c) rest
  end.

(** A run of [cache.put] calls, as a function of the storage. *)
Definition puts (name : string) (entries : list (Request * Response))
  (cs : CacheStorage) : CacheStorage :=
  fold_left (fun acc kr => cache_put name (fst kr) (snd kr) acc) entries cs.

(** The partition called [name] exists. *)
Definition opened (name : string) (cs : CacheStorage) : Prop :=
  is_Some (cs !! name).

(** The requests of the install manifest. *)
Definition manifestRequests : list Request := map (mkRequest "GET") urlsToCache.

(** ** Sample requests, responses and networks *)

Definition membersGet : Request := mkRequest "GET" "https://lodge.example/api/members".
Definition membersPost : Request := mkRequest "POST" "https://lodge.example/api/members".
Definition mainJsGet : Request := mkRequest "GET" "https://lodge.example/main.js".
Definition dashboardGet : Request := mkRequest "GET" "https://lodge.example/dashboard".

Definition membersJson : Response := mkResponse 200 "[{id:1}]".
Definition staleMembers : Response := mkResponse 200 "[]".
Definition notFound : Response := mkResponse 404 "Not Found".
Definition scriptBody : Response := mkResponse 200 "console.log(1)".

(** A network that is down, and one that gives the same answer to every
    call. *)
Definition offline : Net := fun _ _ => NetErr (TypeError "Failed to fetch").
Definition answering (r : Response) : Net := fun _ _ => NetOk r.

(** ** The activate listener *)

(** [caches.keys()]: the names of the partitions that exist. *)
Definition caches_keys (cs : CacheStorage) : list string :=
  map fst (map_to_list cs).

(** [caches.delete(name)] *)
Definition caches_delete (name : string) (cs : CacheStorage) : CacheStorage :=
  delete name cs.

(** The test of the activate listener: the name is none of the three
    names of this version. *)
Definition isOldCache (cacheName : string) : bool :=
  negb (String.eqb cacheName CACHE_NAME)
  && negb (String.eqb cacheName API_CACHE_NAME)
  && negb (String.eqb cacheName STATIC_CACHE_NAME).

(** The deletions that [cacheNames.map(...)] starts, one name after the
    other. *)
Definition deleteOld (cacheNames : list string) (cs : CacheStorage) : CacheStorage :=
  fold_left
    (fun acc cacheName =>
       if isOldCache cacheName then caches_delete cacheName acc else acc)
    cacheNames cs.

(** The activate listener: the names are listed, every old one is
    deleted. *)
Definition onActivate (cs : CacheStorage) : CacheStorage :=
  deleteOld (caches_keys cs) cs.

(** Every key of the partition called [name] is a GET request. *)
Definition get_only (name : string) (cs : CacheStorage) : Prop :=
  forall key r, cache_entry name key cs = Some r -> method key = "GET".

(** The other tasks never break [get_only] on the partition [name]. *)
Definition keeps_get_only (env : Env) (name : string) : Prop :=
  forall t cs, get_only name cs -> get_only name (env t cs).

(** No task's promise rejects anywhere in the trace. *)
Definition no_throw (tr : list (Task * Event)) : bool :=
  forallb (fun te => match snd te with EvThrow _ => false | _ => true end) tr.

(** No network call at all in the trace. *)
Definition no_network (tr : list (Task * Event)) : bool :=
  forallb (fun te => negb (is_network (snd te))) tr.

(** No operation on the cache storage at all in the trace. *)
Definition no_cache_access (tr : list (Task * Event)) : bool :=
  forallb (fun te =>
             match snd te with
             | EvOpen _ | EvMatch _ _ _ | EvPut _ _ _ => false
             | EvStored _ _ _ | EvRefused _ _ _ => false
             | _ => true
             end) tr.




(** The network calls of the trace, with the task that issued each. *)
Definition network_calls (tr : list (Task * Event)) : list (Task * Event) :=
  List.filter (fun te => is_network (snd te)) tr.

(** The storage fails at no suspension point. *)
Definition never_fails (disk : Disk) : Prop := forall t, disk t = None.

(** A storage with an old partition beside the current ones. *)
Definition upgradedStorage : CacheStorage :=
  <[ "radlett-lodge-v0" := {[ mainJsGet := scriptBody ]} ]>
    (cache_put API_CACHE_NAME membersGet staleMembers
       (cache_put STATIC_CACHE_NAME rootRequest scriptBody ∅)).

Arguments caches_open : simpl never.
Arguments cache_match : simpl never.
Arguments cache_put : simpl never.
Arguments cache_entry : simpl never.
Arguments cache_store : simpl never.
Arguments put_accepts : simpl never.
Arguments all_ok : simpl never.

(** * Properties *)

(** ** The classifier *)

Section Classifier.

Lemma startsWith_app (pat s : string) : Str.startsWith pat (pat +:+ s) = true.
Proof.
  induction pat as [|a pat IH]; simpl; [reflexivity|].
  rewrite Ascii.eqb_refl, IH. reflexivity.
Qed.

Lemma includes_unfold (s pat : string) :
  Str.includes s pat =
  (Str.startsWith pat s ||
   match s with
   | EmptyString => false
   | String _ s' => Str.includes s' pat
   end)%bool.
Proof. destruct s; reflexivity. Qed.

Lemma includes_app (before pat after : string) :
  Str.includes (before +:+ pat +:+ after) pat = true.
Proof.
  induction before as [|a before IH].
  - change (Str.includes (pat +:+ after) pat = true).
    rewrite includes_unfold, startsWith_app. reflexivity.
  - change (Str.includes (String a (before +:+ pat +:+ after)) pat = true).
    rewrite includes_unfold, IH. apply orb_true_r.
Qed.

Lemma endsWith_unfold (s suf : string) :
  Str.endsWith s suf =
  (String.eqb s suf ||
   match s with
   | EmptyString => false
   | String _ s' => Str.endsWith s' suf
   end)%bool.
Proof. destruct s; reflexivity. Qed.

Lemma endsWith_app (before suf : string) :
  Str.endsWith (before +:+ suf) suf = true.
Proof.
  induction before as [|a before IH].
  - change (Str.endsWith suf suf = true).
    rewrite endsWith_unfold, String.eqb_refl. reflexivity.
  - change (Str.endsWith (String a (before +:+ suf)) suf = true).
    rewrite endsWith_unfold, IH. apply orb_true_r.
Qed.

Lemma app_assoc_string (a b c : string) : (a +:+ b) +:+ c = a +:+ (b +:+ c).
Proof.
  induction a as [|x a IH]; [reflexivity|].
  change (String x ((a +:+ b) +:+ c) = String x (a +:+ (b +:+ c))).
  now rewrite IH.
Qed.

(** A path that contains an endpoint (or the functions segment) is an
    API request. *)
Lemma isApiRequest_contains (before endpoint after : string) :
  In endpoint ("/functions/v1/" :: API_ENDPOINTS) ->
  isApiRequest (before +:+ endpoint +:+ after) = true.
Proof.
  intros [<- | Hin]; unfold isApiRequest.
  - rewrite includes_app. apply orb_true_r.
  - apply orb_true_iff. left. apply existsb_exists.
    exists endpoint. split; [exact Hin | apply includes_app].
Qed.

Lemma isStaticAsset_suffix (before ext : string) :
  In ext STATIC_EXTENSIONS -> isStaticAsset (before +:+ ext) = true.
Proof.
  intros Hin. unfold isStaticAsset. apply existsb_exists.
  exists ext. split; [exact Hin | apply endsWith_app].
Qed.

End Classifier.

(** C5. A path that contains one of the configured API endpoints, or the
    [/functions/v1/] segment, is classified [Api], also when it ends in a
    static-file extension (the api test comes first); and every path gets
    exactly one category: [Api] exactly when the api test holds,
    [StaticAsset] exactly when it fails and the extension test holds,
    [Navigation] exactly when both fail. *)
Theorem classify_api_precedence (pathname : string) :
  (forall before endpoint after,
      In endpoint ("/functions/v1/" :: API_ENDPOINTS) ->
      pathname = before +:+ endpoint +:+ after ->
      classify pathname = Api) /\
  (forall before endpoint mid ext,
      In endpoint ("/functions/v1/" :: API_ENDPOINTS) ->
      In ext STATIC_EXTENSIONS ->
      pathname = before +:+ endpoint +:+ mid +:+ ext ->
      isStaticAsset pathname = true /\ classify pathname = Api) /\
  (classify pathname = Api <-> isApiRequest pathname = true) /\
  (classify pathname = StaticAsset <->
     isApiRequest pathname = false /\ isStaticAsset pathname = true) /\
  (classify pathname = Navigation <->
     isApiRequest pathname = false /\ isStaticAsset pathname = false).
Proof.
  assert (Hapi : forall before endpoint after,
             In endpoint ("/functions/v1/" :: API_ENDPOINTS) ->
             pathname = before +:+ endpoint +:+ after ->
             classify pathname = Api).
  { intros before endpoint after Hin ->. unfold classify.
    now rewrite isApiRequest_contains. }
  split; [exact Hapi|]. split.
  - intros before endpoint mid ext Hin Hext Heq. split.
    + rewrite Heq.
      rewrite <- (app_assoc_string endpoint mid ext).
      rewrite <- (app_assoc_string before (endpoint +:+ mid) ext).
      now apply isStaticAsset_suffix.
    + now apply (Hapi before endpoint (mid +:+ ext)).
  - unfold classify.
    destruct (isApiRequest pathname), (isStaticAsset pathname);
      repeat split; intros; try tauto; try discriminate;
      match goal with H : _ /\ _ |- _ => destruct H; discriminate end.
Qed.

Lemma classify_api_precedence_witness :
  isStaticAsset "/api/members/avatar.png" = true /\
  classify "/api/members/avatar.png" = Api.
Proof.
  apply (proj1 (proj2 (classify_api_precedence "/api/members/avatar.png"))
           "" "/api/members" "/avatar" ".png").
  - simpl. tauto.
  - simpl. tauto.
  - reflexivity.
Defined.

(** ** Cache storage lemmas *)

Section Storage.

Implicit Types (cs : CacheStorage) (name : string) (key : Request).

Lemma cache_entry_open name' name key cs :
  cache_entry name key (caches_open name' cs) = cache_entry name key cs.
Proof.
  unfold cache_entry, caches_open.
  destruct (cs !! name') eqn:E; [reflexivity|].
  destruct (decide (name' = name)) as [->|Hne].
  - rewrite lookup_insert_eq, E. apply lookup_empty.
  - rewrite lookup_insert_ne by exact Hne. reflexivity.
Qed.

Lemma cache_entry_store_eq name key r cs :
  cache_entry name key (cache_store name key r cs) = Some r.
Proof.
  unfold cache_entry, cache_store.
  rewrite lookup_insert_eq. apply lookup_insert_eq.
Qed.

Lemma cache_entry_store_other name key name' key' r cs :
  (name', key') <> (name, key) ->
  cache_entry name key (cache_store name' key' r cs) = cache_entry name key cs.
Proof.
  intros Hne. unfold cache_entry, cache_store.
  destruct (decide (name' = name)) as [->|Hn].
  - rewrite lookup_insert_eq.
    rewrite lookup_insert_ne by congruence.
    destruct (cs !! name); [reflexivity | apply lookup_empty].
  - rewrite lookup_insert_ne by exact Hn. reflexivity.
Qed.

Lemma cache_entry_put_other name key name' key' r cs :
  (name', key') <> (name, key) ->
  cache_entry name key (cache_put name' key' r cs) = cache_entry name key cs.
Proof.
  intros Hne. unfold cache_put.
  destruct (put_accepts key' r); [|reflexivity].
  now apply cache_entry_store_other.
Qed.

Lemma put_accepts_get key r : put_accepts key r = true -> method key = "GET".
Proof.
  unfold put_accepts. intros H. apply andb_true_iff in H as [H _].
  now apply String.eqb_eq.
Qed.

Lemma put_accepts_iff key r :
  put_accepts key r = true <-> method key = "GET" /\ status r <> 206.
Proof.
  unfold put_accepts. rewrite andb_true_iff, negb_true_iff.
  rewrite String.eqb_eq, Z.eqb_neq. reflexivity.
Qed.

Lemma cache_match_get name key cs :
  method key = "GET" -> cache_match name key cs = cache_entry name key cs.
Proof. intros H. unfold cache_match. now rewrite H. Qed.

Lemma cache_match_open name' name key cs :
  cache_match name key (caches_open name' cs) = cache_match name key cs.
Proof. unfold cache_match. now rewrite cache_entry_open. Qed.

Lemma cache_match_put_eq name key r cs :
  put_accepts key r = true ->
  cache_match name key (cache_put name key r cs) = Some r.
Proof.
  intros Hacc. unfold cache_match, cache_put.
  rewrite Hacc, (put_accepts_get _ _ Hacc). cbn.
  apply cache_entry_store_eq.
Qed.

Lemma cache_match_put_other name key name' key' r cs :
  (name', key') <> (name, key) ->
  cache_match name key (cache_put name' key' r cs) = cache_match name key cs.
Proof.
  intros Hne. unfold cache_match.
  now rewrite cache_entry_put_other.
Qed.

Lemma cache_match_put_refused name key name' key' r cs :
  put_accepts key' r = false ->
  cache_match name key (cache_put name' key' r cs) = cache_match name key cs.
Proof. intros H. unfold cache_put. now rewrite H. Qed.

End Storage.

Lemma quiet_untouched (name : string) (key : Request) : untouched quiet name key.
Proof. intros t cs. reflexivity. Qed.

(** Lookups through what suspension and opening do to the storage. *)
Ltac see_through :=
  repeat first
    [ rewrite cache_match_open
    | match goal with
      | H : untouched _ _ _ |- _ => rewrite H
      end ].

(** One case distinction on what the host answers, then computation. *)
Ltac host_case :=
  match goal with
  | |- context [match ?x with _ => _ end] =>
      lazymatch x with
      | ok _ => destruct x eqn:?
      | put_accepts _ _ => destruct x eqn:?
      | cache_match _ _ _ => destruct x eqn:?
      | _ =>
          lazymatch type of x with
          | FetchResult => destruct x eqn:?
          | option Error => destruct x eqn:?
          end
      end
  end.

Ltac all_cases := cbn; repeat (host_case; cbn).

(** The same when the storage may fail. *)
Ltac storage_step :=
  first [ host_case
        | progress (unfold do_open, do_match, resolve, complete_put) ];
  cbn.

Ltac storage_cases := cbn; repeat storage_step.

(** ** The API strategy *)

(** C2. A GET API request whose key is in the api partition is answered
    with exactly the stored response; by the time the handler returns, a
    network call for the same request has been issued by the detached
    refresh and nothing has been awaited on it (no call has settled); the
    answer does not depend on the network. *)
Theorem api_get_cache_hit (env : Env) (net : Net) (cs : CacheStorage)
    (request : Request) (c : Response) :
  method request = "GET" ->
  untouched env API_CACHE_NAME request ->
  cache_match API_CACHE_NAME request cs = Some c ->
  let run := serve env net (handleApiRequest request) cs in
  outcome run = Returned (VResponse c) /\
  trace (at_return run) =
    [ (Handler, EvOpen API_CACHE_NAME);
      (Handler, EvMatch API_CACHE_NAME request (Some c));
      (Detached, EvFetch 0 request);
      (Handler, EvReturn (VResponse c)) ] /\
  forallb (fun te => negb (is_settle (snd te))) (trace (at_return run)) = true /\
  cache_match API_CACHE_NAME request (storage (at_return run)) = Some c /\
  (forall net', outcome (serve env net' (handleApiRequest request) cs) = outcome run).
Proof.
  intros Hget Hunt Hc.
  unfold serve, serve_from, serve_on, boot, handleApiRequest.
  rewrite Hget. cbn.
  see_through; rewrite Hc; cbn.
  see_through; rewrite Hc.
  repeat split.
Qed.

Lemma api_get_cache_hit_witness :
  outcome (serve quiet offline (handleApiRequest membersGet)
             (cache_put API_CACHE_NAME membersGet staleMembers ∅))
  = Returned (VResponse staleMembers).
Proof.
  apply (api_get_cache_hit quiet offline
           (cache_put API_CACHE_NAME membersGet staleMembers ∅)
           membersGet staleMembers).
  - reflexivity.
  - apply quiet_untouched.
  - vm_compute. reflexivity.
Defined.




(** The second lookup matters when another handler fills the entry while
    this one waits for the network: the entry is then served. *)
Example race_during_fetch_serves_entry :
  let env : Env := fun t cs =>
        if Nat.eqb t 2 then cache_put API_CACHE_NAME membersGet staleMembers cs
        else cs in
  outcome (serve env offline (handleApiRequest membersGet) ∅)
    = Returned (VResponse staleMembers).
Proof. vm_compute. reflexivity. Qed.

(** ** The static-asset strategy *)

(** C8. A static-asset request whose key is not in the static partition
    and whose network fetch fails ends with the very error of the network:
    nothing is substituted, and no cache write happens (the trace holds no
    put, and every entry the other tasks leave alone reads as before). *)
Theorem static_miss_network_failure (env : Env) (net : Net) (cs : CacheStorage)
    (request : Request) (e : Error) :
  untouched env STATIC_CACHE_NAME request ->
  cache_match STATIC_CACHE_NAME request cs = None ->
  net 0%nat request = NetErr e ->
  let run := serve env net (handleStaticAsset request) cs in
  outcome run = Threw e /\
  trace (final run) =
    [ (Handler, EvOpen STATIC_CACHE_NAME);
      (Handler, EvMatch STATIC_CACHE_NAME request None);
      (Handler, EvFetch 0 request);
      (Handler, EvSettle 0 (NetErr e));
      (Handler, EvThrow e) ] /\
  no_put (trace (final run)) = true /\
  (forall name key,
      untouched env name key ->
      cache_match name key (storage (final run)) = cache_match name key cs).
Proof.
  intros Hunt Hnone Hnet.
  unfold serve, serve_from, serve_on, boot, handleStaticAsset. cbn.
  see_through; rewrite Hnone; cbn.
  rewrite Hnet; cbn.
  repeat split.
  intros name key Hframe. see_through. reflexivity.
Qed.

Lemma static_miss_network_failure_witness :
  outcome (serve quiet offline (handleStaticAsset mainJsGet) ∅)
    = Threw (TypeError "Failed to fetch").
Proof.
  apply (static_miss_network_failure quiet offline ∅ mainJsGet
           (TypeError "Failed to fetch")).
  - apply quiet_untouched.
  - reflexivity.
  - reflexivity.
Defined.

(** C10. A response whose status is not ok is never stored. On a
    static-asset cache miss it is returned as it is and the static
    partition still has no entry for the request; in the background
    refresh after an API cache hit it is dropped and the cached entry stays
    what it was. *)
Theorem non_ok_response_not_cached (env : Env) (net : Net) (cs : CacheStorage)
    (request : Request) (resp : Response) :
  ok resp = false ->
  net 0%nat request = NetOk resp ->
  (untouched env STATIC_CACHE_NAME request ->
   cache_match STATIC_CACHE_NAME request cs = None ->
   let run := serve env net (handleStaticAsset request) cs in
   outcome run = Returned (VResponse resp) /\
   no_put (trace (final run)) = true /\
   cache_match STATIC_CACHE_NAME request (storage (final run)) = None) /\
  (forall c,
   method request = "GET" ->
   untouched env API_CACHE_NAME request ->
   cache_match API_CACHE_NAME request cs = Some c ->
   let run := serve env net (handleApiRequest request) cs in
   outcome run = Returned (VResponse c) /\
   In (Detached, EvSettle 0 (NetOk resp)) (trace (final run)) /\
   no_put (trace (final run)) = true /\
   cache_match API_CACHE_NAME request (storage (final run)) = Some c).
Proof.
  intros Hok Hnet. split.
  - intros Hunt Hnone.
    unfold serve, serve_from, serve_on, boot, handleStaticAsset. cbn.
    see_through; rewrite Hnone; cbn.
    rewrite Hnet; cbn. rewrite Hok; cbn.
    repeat split. see_through. exact Hnone.
  - intros c Hget Hunt Hc.
    unfold serve, serve_from, serve_on, boot, handleApiRequest, updateCacheInBackground.
    rewrite Hget. cbn.
    see_through; rewrite Hc; cbn.
    rewrite Hnet; cbn. rewrite Hok; cbn.
    repeat split.
    + right. right. right. right. left. reflexivity.
    + see_through. exact Hc.
Qed.

Lemma non_ok_response_not_cached_witness :
  outcome (serve quiet (answering notFound) (handleStaticAsset mainJsGet) ∅)
    = Returned (VResponse notFound) /\
  cache_match STATIC_CACHE_NAME mainJsGet
    (storage (final (serve quiet (answering notFound)
                       (handleStaticAsset mainJsGet) ∅))) = None /\
  cache_match API_CACHE_NAME membersGet
    (storage (final (serve quiet (answering notFound)
                       (handleApiRequest membersGet)
                       (cache_put API_CACHE_NAME membersGet staleMembers ∅))))
    = Some staleMembers.
Proof.
  pose proof (proj1 (non_ok_response_not_cached quiet (answering notFound) ∅
                       mainJsGet notFound eq_refl eq_refl)
                (quiet_untouched _ _) eq_refl) as [H1 [_ H2]].
  pose proof (proj2 (non_ok_response_not_cached quiet (answering notFound)
                       (cache_put API_CACHE_NAME membersGet staleMembers ∅)
                       membersGet notFound eq_refl eq_refl)
                staleMembers eq_refl (quiet_untouched _ _) eq_refl)
    as [_ [_ [_ H3]]].
  split; [exact H1|]. split; [exact H2 | exact H3].
Defined.

(** The refresh does overwrite the entry when the new response is ok. *)
Example refresh_overwrites_on_ok :
  cache_match API_CACHE_NAME membersGet
    (storage (final (serve quiet (answering membersJson)
                       (handleApiRequest membersGet)
                       (cache_put API_CACHE_NAME membersGet staleMembers ∅))))
  = Some membersJson.
Proof. vm_compute. reflexivity. Qed.

(** ** The navigation strategy *)

(** The right operand of [||] is never taken when the left one is a
    promise. *)
Lemma js_or_promise (p : Pending) (v : Value) : js_or (VPromise p) v = VPromise p.
Proof. reflexivity. Qed.

(** C1 (what the code does). When the network fetch of a navigation
    request fails and the static partition has no entry for the root URL,
    the handler resolves to [undefined]: the promise of [cache.match('/')]
    is truthy, so the 503 "Offline" response on the right of [||] is never
    chosen. *)
Theorem navigation_failure_without_shell (env : Env) (net : Net)
    (cs : CacheStorage) (request : Request) (e : Error) :
  net 0%nat request = NetErr e ->
  untouched env STATIC_CACHE_NAME rootRequest ->
  cache_match STATIC_CACHE_NAME rootRequest cs = None ->
  let run := serve env net (handleNavigation request) cs in
  outcome run = Returned VUndefined /\
  outcome run <> Returned (VResponse offlineResponse) /\
  trace (final run) =
    [ (Handler, EvFetch 0 request);
      (Handler, EvSettle 0 (NetErr e));
      (Handler, EvOpen STATIC_CACHE_NAME);
      (Handler, EvMatch STATIC_CACHE_NAME rootRequest None);
      (Handler, EvReturn VUndefined) ].
Proof.
  intros Hnet Hunt Hnone.
  unfold serve, serve_from, serve_on, boot, handleNavigation. cbn.
  rewrite Hnet; cbn.
  see_through; rewrite Hnone; cbn.
  repeat split. discriminate.
Qed.

Lemma navigation_failure_without_shell_witness :
  outcome (serve quiet offline (handleNavigation dashboardGet) ∅)
    = Returned VUndefined /\
  outcome (serve quiet offline (handleNavigation dashboardGet) ∅)
    <> Returned (VResponse offlineResponse).
Proof.
  pose proof (navigation_failure_without_shell quiet offline ∅ dashboardGet
                (TypeError "Failed to fetch")
                eq_refl (quiet_untouched _ _) eq_refl) as [H1 [H2 _]].
  split; [exact H1 | exact H2].
Defined.

(** X7. With the shell in the static partition, a failed navigation is
    answered with it. *)
Lemma navigation_failure_with_shell (env : Env) (net : Net)
    (cs : CacheStorage) (request : Request) (e : Error) (shell : Response) :
  net 0%nat request = NetErr e ->
  untouched env STATIC_CACHE_NAME rootRequest ->
  cache_match STATIC_CACHE_NAME rootRequest cs = Some shell ->
  outcome (serve env net (handleNavigation request) cs)
    = Returned (VResponse shell).
Proof.
  intros Hnet Hunt Hshell.
  unfold serve, serve_from, serve_on, boot, handleNavigation. cbn.
  rewrite Hnet; cbn.
  see_through; rewrite Hshell; cbn. reflexivity.
Qed.

(** ** Requests that are not GET *)

(** C7 as stated fails: a POST to an API endpoint whose network fetch
    fails does look the request up in the api partition. *)
Lemma api_non_get_failure_reads_cache :
  no_read (trace (final (serve quiet offline (handleApiRequest membersPost) ∅)))
    = false /\
  In (Handler, EvMatch API_CACHE_NAME membersPost None)
     (trace (final (serve quiet offline (handleApiRequest membersPost) ∅))).
Proof. vm_compute. split; [reflexivity|]. tauto. Qed.

(** C7 (amended). For an API request that is not a GET, the handler goes
    to the network without looking into the cache first and never calls
    [cache.put]: it returns the answer of the network, or propagates its
    failure. There is no cache fallback; but when the network fails, the
    catch block does call [cache.match] with the request once, which finds
    nothing for a request that is not a GET, before the error of the
    network is thrown. *)
Theorem api_non_get_network_first (env : Env) (net : Net) (cs : CacheStorage)
    (request : Request) :
  method request <> "GET" ->
  let run := serve env net (handleApiRequest request) cs in
  no_put (trace (final run)) = true /\
  match net 0%nat request with
  | NetOk resp =>
      outcome run = Returned (VResponse resp) /\
      trace (final run) =
        [ (Handler, EvOpen API_CACHE_NAME);
          (Handler, EvFetch 0 request);
          (Handler, EvSettle 0 (NetOk resp));
          (Handler, EvReturn (VResponse resp)) ]
  | NetErr e =>
      outcome run = Threw e /\
      trace (final run) =
        [ (Handler, EvOpen API_CACHE_NAME);
          (Handler, EvFetch 0 request);
          (Handler, EvSettle 0 (NetErr e));
          (Handler, EvMatch API_CACHE_NAME request None);
          (Handler, EvThrow e) ]
  end.
Proof.
  intros Hmeth.
  apply String.eqb_neq in Hmeth.
  unfold serve, serve_from, serve_on, boot, handleApiRequest, fetchFromNetwork.
  rewrite Hmeth. cbn.
  destruct (net 0%nat request) as [resp|e]; cbn.
  - repeat split.
  - unfold cache_match. rewrite Hmeth. cbn. repeat split.
Qed.

Lemma api_non_get_network_first_witness :
  outcome (serve quiet offline (handleApiRequest membersPost) ∅)
    = Threw (TypeError "Failed to fetch") /\
  outcome (serve quiet (answering membersJson) (handleApiRequest membersPost) ∅)
    = Returned (VResponse membersJson).
Proof.
  assert (Hpost : method membersPost <> "GET") by (vm_compute; discriminate).
  pose proof (api_non_get_network_first quiet offline ∅ membersPost Hpost)
    as [_ [H1 _]].
  pose proof (api_non_get_network_first quiet (answering membersJson) ∅
                membersPost Hpost) as [_ [H2 _]].
  split; [exact H1 | exact H2].
Defined.


Lemma cache_entry_complete_put_frame (disk : Disk) (env : Env) (who : Task)
    (name name' : string) (key key' : Request) (r : Response) (w : World) :
  put_accepts key' r = false ->
  cache_entry name key (storage (complete_put disk env who name' key' r w))
  = cache_entry name key (env (clock w) (storage w)).
Proof.
  intros Hacc. unfold complete_put. rewrite Hacc.
  destruct (disk (clock w)); reflexivity.
Qed.





(** ** Ordering inside one strategy *)

(** C9 as stated fails: the navigation strategy calls the network before
    it reads any cache. *)
Lemma navigation_network_before_read :
  read_before_network
    (trace (final (serve quiet offline (handleNavigation dashboardGet) ∅)))
  = false /\
  trace (final (serve quiet offline (handleNavigation dashboardGet) ∅)) =
    [ (Handler, EvFetch 0 dashboardGet);
      (Handler, EvSettle 0 (NetErr (TypeError "Failed to fetch")));
      (Handler, EvOpen STATIC_CACHE_NAME);
      (Handler, EvMatch STATIC_CACHE_NAME rootRequest None);
      (Handler, EvReturn VUndefined) ].
Proof. vm_compute. split; reflexivity. Qed.

(** C9 (amended). A cache read comes before any network call in the
    static-asset strategy and, for GET requests, in the API strategy; the
    navigation strategy and the API strategy for other methods call the
    network first. In all three strategies the handler's promise settles
    before any write of a background refresh. *)
Theorem strategy_ordering (env : Env) (net : Net) (cs : CacheStorage)
    (request : Request) :
  read_before_network
    (trace (final (serve env net (handleStaticAsset request) cs))) = true /\
  read_before_network
    (trace (final (serve env net (handleApiRequest request) cs)))
    = String.eqb (method request) "GET" /\
  read_before_network
    (trace (final (serve env net (handleNavigation request) cs))) = false /\
  (forall pathname,
      settled_before_refresh_write
        (trace (final (serve env net (onFetch pathname request) cs))) = true).
Proof.
  split; [|split; [|split]].
  - unfold serve, serve_from, serve_on, boot, handleStaticAsset.
    all_cases; reflexivity.
  - unfold serve, serve_from, serve_on, boot, handleApiRequest, fetchFromNetwork,
      updateCacheInBackground.
    destruct (String.eqb (method request) "GET"); all_cases; reflexivity.
  - unfold serve, serve_from, serve_on, boot, handleNavigation.
    all_cases; reflexivity.
  - intros pathname. unfold onFetch.
    destruct (classify pathname).
    + unfold serve, serve_from, serve_on, boot, handleApiRequest,
        fetchFromNetwork, updateCacheInBackground.
      destruct (String.eqb (method request) "GET"); all_cases; reflexivity.
    + unfold serve, serve_from, serve_on, boot, handleStaticAsset.
      all_cases; reflexivity.
    + unfold serve, serve_from, serve_on, boot, handleNavigation.
      all_cases; reflexivity.
Qed.

(** ** Install *)

Section Install.

Implicit Types (cs : CacheStorage) (name : string) (key : Request).

Lemma opened_open name cs : opened name (caches_open name cs).
Proof.
  unfold opened, caches_open.
  destruct (cs !! name) eqn:E.
  - rewrite E. eauto.
  - rewrite lookup_insert_eq. eauto.
Qed.

Lemma opened_open_other name name' cs :
  opened name cs -> opened name (caches_open name' cs).
Proof.
  unfold opened, caches_open. intros H.
  destruct (cs !! name') eqn:E; [exact H|].
  destruct (decide (name' = name)) as [->|Hne].
  - rewrite lookup_insert_eq. eauto.
  - rewrite lookup_insert_ne by exact Hne. exact H.
Qed.

Lemma opened_put name name' key r cs :
  opened name cs -> opened name (cache_put name' key r cs).
Proof.
  unfold opened, cache_put, cache_store. intros H.
  destruct (put_accepts key r); [|exact H].
  destruct (decide (name' = name)) as [->|Hne].
  - rewrite lookup_insert_eq. eauto.
  - rewrite lookup_insert_ne by exact Hne. exact H.
Qed.

Lemma opened_puts name name' entries cs :
  opened name cs -> opened name (puts name' entries cs).
Proof.
  revert cs. induction entries as [|[k r] rest IH]; intros cs H; [exact H|].
  apply IH. now apply opened_put.
Qed.

(** Opening a partition that exists changes nothing. *)
Lemma caches_open_opened name cs : opened name cs -> caches_open name cs = cs.
Proof.
  unfold opened, caches_open. intros [c Hc]. now rewrite Hc.
Qed.

(** Storing what is already stored changes nothing. *)
Lemma cache_put_same name key r cs :
  cache_match name key cs = Some r -> cache_put name key r cs = cs.
Proof.
  unfold cache_match, cache_put, cache_store, cache_entry. intros H.
  destruct (put_accepts key r); [|reflexivity].
  destruct (String.eqb (method key) "GET"); [|discriminate H].
  destruct (cs !! name) as [c|] eqn:E; [|discriminate H].
  cbn. rewrite (insert_id c key r H). now apply insert_id.
Qed.

Lemma puts_absorbed name entries cs :
  (forall k r, In (k, r) entries -> cache_match name k cs = Some r) ->
  puts name entries cs = cs.
Proof.
  induction entries as [|[k r] rest IH]; intros H; [reflexivity|].
  unfold puts. cbn.
  rewrite (cache_put_same name k r cs) by (apply H; now left).
  apply IH. intros k' r' Hin. apply H. now right.
Qed.

Lemma puts_other name entries key cs :
  ~ In key (map fst entries) ->
  cache_match name key (puts name entries cs) = cache_match name key cs.
Proof.
  revert cs. induction entries as [|[k r] rest IH]; intros cs Hnot; [reflexivity|].
  unfold puts. cbn. fold (puts name rest (cache_put name k r cs)).
  rewrite IH by (intros Hin; apply Hnot; now right).
  apply cache_match_put_other. intros Heq. apply Hnot. left. cbn. congruence.
Qed.

Lemma puts_lookup name entries key r cs :
  List.NoDup (map fst entries) ->
  (forall k r', In (k, r') entries -> put_accepts k r' = true) ->
  In (key, r) entries ->
  cache_match name key (puts name entries cs) = Some r.
Proof.
  revert cs. induction entries as [|[k r'] rest IH]; intros cs Hnd Hacc Hin.
  - destruct Hin.
  - cbn in Hnd. apply NoDup_cons_iff in Hnd as [Hfresh Hnd].
    unfold puts. cbn. fold (puts name rest (cache_put name k r' cs)).
    destruct Hin as [Heq|Hin].
    + injection Heq as -> ->.
      rewrite puts_other by exact Hfresh.
      apply cache_match_put_eq. apply Hacc. now left.
    + apply IH; [exact Hnd | | exact Hin].
      intros k0 r0 H0. apply Hacc. now right.
Qed.

Lemma NoDup_keys_combine (reqs : list Request) (resps : list Response) :
  List.NoDup reqs -> List.NoDup (map fst (combine reqs resps)).
Proof.
  revert resps. induction reqs as [|q reqs IH]; intros resps Hnd.
  - constructor.
  - destruct resps as [|p resps]; [constructor|].
    apply NoDup_cons_iff in Hnd as [Hfresh Hnd]. cbn.
    apply NoDup_cons_iff. split; [|now apply IH].
    intros Hin. apply Hfresh.
    apply in_map_iff in Hin as [[k r] [Hk Hin]]. cbn in Hk. subst k.
    eapply in_combine_l. exact Hin.
Qed.

(** Storing a batch a second time changes nothing. *)
Lemma puts_twice name reqs resps cs :
  List.NoDup reqs ->
  (forall k r, In (k, r) (combine reqs resps) -> put_accepts k r = true) ->
  puts name (combine reqs resps) (puts name (combine reqs resps) cs)
  = puts name (combine reqs resps) cs.
Proof.
  intros Hnd Hacc. apply puts_absorbed. intros k r Hin.
  apply puts_lookup; [now apply NoDup_keys_combine | exact Hacc | exact Hin].
Qed.

(** What [cache.addAll] lets through is accepted by the puts that follow. *)
Lemma all_ok_accepted (results : list FetchResult) (resps : list Response) :
  all_ok results = Some resps ->
  forall r, In r resps -> addAll_accepts r = true.
Proof.
  revert resps. induction results as [|res results IH]; intros resps H r Hin.
  - injection H as <-. destruct Hin.
  - unfold all_ok in H. fold all_ok in H.
    destruct res as [r0|e]; [|discriminate H].
    destruct (addAll_accepts r0) eqn:Hacc; [|discriminate H].
    destruct (all_ok results) as [rs|]; [|discriminate H].
    injection H as <-. destruct Hin as [<-|Hin]; [exact Hacc|].
    now apply (IH rs).
Qed.

Lemma manifest_entries_accepted (results : list FetchResult)
    (resps : list Response) :
  all_ok results = Some resps ->
  forall k r, In (k, r) (combine manifestRequests resps) ->
              put_accepts k r = true.
Proof.
  intros Hall k r Hin.
  apply put_accepts_iff. split.
  - apply in_combine_l in Hin. unfold manifestRequests in Hin.
    apply in_map_iff in Hin as [u [<- _]]. reflexivity.
  - apply in_combine_r in Hin.
    pose proof (all_ok_accepted _ _ Hall r Hin) as Hacc.
    unfold addAll_accepts in Hacc.
    apply andb_true_iff in Hacc as [_ Hacc].
    apply negb_true_iff, Z.eqb_neq in Hacc. exact Hacc.
Qed.

Lemma manifestRequests_NoDup : List.NoDup manifestRequests.
Proof.
  unfold manifestRequests, urlsToCache. cbn.
  repeat (apply NoDup_cons_iff; split;
          [cbn; intros H;
           repeat (destruct H as [H|H]; [discriminate H|]); exact H |]).
  constructor.
Qed.

Variable env : Env.
Variable net : Net.

Lemma put_all_calls who name entries w :
  calls (put_all who name entries w) = calls w.
Proof.
  revert w. induction entries as [|[k r] rest IH]; intros w; [reflexivity|].
  cbn. now rewrite IH.
Qed.

Lemma put_all_storage who name entries w :
  storage (put_all who name entries w) = puts name entries (storage w).
Proof.
  revert w. induction entries as [|[k r] rest IH]; intros w; [reflexivity|].
  cbn. now rewrite IH.
Qed.

(** One run of the install step, from any world: four network calls are
    issued in any case. *)
Lemma install_calls (w : World) :
  calls (final (serve_from env net onInstall w))
  = (calls w + length urlsToCache)%nat.
Proof.
  unfold serve_from, serve_on, onInstall. cbn.
  unfold addAll_finish. cbn.
  destruct (all_ok _); cbn; rewrite ?put_all_calls; cbn; lia.
Qed.

(** One run of the install step when no other task interferes. *)
Lemma install_quiet (w : World) :
  let run := serve_from quiet net onInstall w in
  let opened_cs :=
    caches_open API_CACHE_NAME (caches_open STATIC_CACHE_NAME (storage w)) in
  match all_ok (answers net (calls w) manifestRequests) with
  | Some resps =>
      outcome run = Returned VUndefined /\
      storage (final run)
        = puts STATIC_CACHE_NAME (combine manifestRequests resps) opened_cs
  | None =>
      outcome run = Threw (TypeError "Request failed") /\
      storage (final run) = opened_cs
  end.
Proof.
  unfold serve_from, serve_on, onInstall. cbn.
  unfold addAll_finish. cbn.
  destruct (all_ok _) as [resps|]; cbn.
  - split; [reflexivity|]. rewrite put_all_storage. reflexivity.
  - split; reflexivity.
Qed.

Lemma answers_stable (c : nat) (urls : list string) :
  (forall id id' u, net id (mkRequest "GET" u) = net id' (mkRequest "GET" u)) ->
  answers net c (map (mkRequest "GET") urls)
  = answers net 0 (map (mkRequest "GET") urls).
Proof.
  intros Hstable. generalize 0%nat as c'. revert c.
  induction urls as [|u urls IH]; intros c c'; [reflexivity|].
  cbn. rewrite (Hstable c c'). f_equal. apply IH.
Qed.

End Install.

(** C4 as stated fails: the second install issues four network calls of its
    own although the static partition already holds the whole manifest. *)
Lemma second_install_fetches_again :
  let first := serve quiet (answering scriptBody) onInstall ∅ in
  let second :=
    serve_from quiet (answering scriptBody) onInstall (final first) in
  outcome first = Returned VUndefined /\
  forallb (fun u => bool_decide
             (cache_match STATIC_CACHE_NAME (mkRequest "GET" u)
                (storage (final first)) = Some scriptBody)) urlsToCache = true /\
  calls (final first) = 4%nat /\
  calls (final second) = 8%nat /\
  calls (final second) <> calls (final first).
Proof. vm_compute. repeat split. discriminate. Qed.

(** C4 (amended). Every install fetches the whole manifest, whatever the
    static partition holds: the second of two installs in a row issues its
    own four network calls. When the network answers the manifest requests
    the second time as it did the first, the second install ends as the
    first did and leaves the cache storage as the first left it. *)
Theorem install_twice (net : Net) (cs : CacheStorage) :
  (forall id id' u, net id (mkRequest "GET" u) = net id' (mkRequest "GET" u)) ->
  let first := serve quiet net onInstall cs in
  let second := serve_from quiet net onInstall (final first) in
  calls (final first) = length urlsToCache /\
  calls (final second) = (calls (final first) + length urlsToCache)%nat /\
  outcome second = outcome first /\
  storage (final second) = storage (final first).
Proof.
  intros Hstable. cbv zeta. unfold serve.
  set (first := serve_from quiet net onInstall (boot cs)).
  set (second := serve_from quiet net onInstall (final first)).
  split; [apply (install_calls quiet net (boot cs))|].
  split; [apply (install_calls quiet net (final first))|].
  pose proof (install_quiet net (boot cs)) as H1.
  pose proof (install_quiet net (final first)) as H2.
  cbv zeta in H1, H2. fold first in H1. fold second in H2.
  unfold manifestRequests in H1, H2.
  rewrite (answers_stable net (calls (final first)) urlsToCache Hstable) in H2.
  change (calls (boot cs)) with 0%nat in H1.
  fold manifestRequests in H1, H2.
  assert (Hs : opened STATIC_CACHE_NAME (storage (final first)) /\
               opened API_CACHE_NAME (storage (final first))).
  { destruct (all_ok _) as [resps|]; destruct H1 as [_ ->].
    - split; apply opened_puts;
        [apply opened_open_other, opened_open | apply opened_open].
    - split; [apply opened_open_other, opened_open | apply opened_open]. }
  destruct Hs as [Hstatic Hapi].
  rewrite (caches_open_opened STATIC_CACHE_NAME _ Hstatic) in H2.
  rewrite (caches_open_opened API_CACHE_NAME _ Hapi) in H2.
  destruct (all_ok _) as [resps|] eqn:Hall.
  - destruct H1 as [Ho1 Hs1], H2 as [Ho2 Hs2].
    split; [congruence|].
    rewrite Hs2, Hs1.
    apply puts_twice;
      [apply manifestRequests_NoDup | exact (manifest_entries_accepted _ _ Hall)].
  - destruct H1 as [Ho1 Hs1], H2 as [Ho2 Hs2].
    split; congruence.
Qed.

Lemma install_twice_witness :
  let first := serve quiet (answering scriptBody) onInstall ∅ in
  let second :=
    serve_from quiet (answering scriptBody) onInstall (final first) in
  calls (final second) = (calls (final first) + 4)%nat /\
  storage (final second) = storage (final first).
Proof.
  pose proof (install_twice (answering scriptBody) ∅
                (fun id id' u => eq_refl)) as [_ [H1 [_ H2]]].
  split; [exact H1 | exact H2].
Defined.

(** After an install that succeeded, a navigation that finds the network
    down is answered with the shell stored under the root URL. *)
Example offline_navigation_after_install :
  let installed := final (serve quiet (answering scriptBody) onInstall ∅) in
  outcome (serve_from quiet offline (handleNavigation dashboardGet) installed)
    = Returned (VResponse scriptBody).
Proof. vm_compute. reflexivity. Qed.

(** * Further properties *)

(** ** The classifier, characterised *)

Lemma startsWith_inv (pat s : string) :
  Str.startsWith pat s = true -> exists after, s = pat +:+ after.
Proof.
  revert s. induction pat as [|a pat IH]; intros s H.
  - exists s. reflexivity.
  - destruct s as [|b s]; [discriminate H|].
    cbn in H. apply andb_true_iff in H as [Hab Hrest].
    apply Ascii.eqb_eq in Hab. subst b.
    destruct (IH s Hrest) as [after ->].
    exists after. reflexivity.
Qed.

Lemma includes_inv (s pat : string) :
  Str.includes s pat = true -> exists before after, s = before +:+ pat +:+ after.
Proof.
  induction s as [|a s IH]; intros H; rewrite includes_unfold in H;
    apply orb_true_iff in H as [H|H].
  - destruct (startsWith_inv _ _ H) as [after ->]. exists "", after. reflexivity.
  - discriminate H.
  - destruct (startsWith_inv _ _ H) as [after ->]. exists "", after. reflexivity.
  - destruct (IH H) as [before [after ->]].
    exists (String a before), after. reflexivity.
Qed.

Lemma endsWith_inv (s suf : string) :
  Str.endsWith s suf = true -> exists before, s = before +:+ suf.
Proof.
  induction s as [|a s IH]; intros H; rewrite endsWith_unfold in H;
    apply orb_true_iff in H as [H|H].
  - apply String.eqb_eq in H. subst suf. exists "". reflexivity.
  - discriminate H.
  - apply String.eqb_eq in H. subst suf. exists "". reflexivity.
  - destruct (IH H) as [before ->]. exists (String a before). reflexivity.
Qed.

(** X1. [isApiRequest] holds exactly for the paths in which one of the five
    endpoints or the [/functions/v1/] segment occurs somewhere: at the
    start, in the middle or at the end. *)
Theorem isApiRequest_iff (pathname : string) :
  isApiRequest pathname = true <->
  exists before endpoint after,
    In endpoint ("/functions/v1/" :: API_ENDPOINTS) /\
    pathname = before +:+ endpoint +:+ after.
Proof.
  split.
  - unfold isApiRequest. intros H. apply orb_true_iff in H as [H|H].
    + apply existsb_exists in H as [endpoint [Hin Hinc]].
      destruct (includes_inv _ _ Hinc) as [before [after ->]].
      exists before, endpoint, after. split; [now right | reflexivity].
    + destruct (includes_inv _ _ H) as [before [after ->]].
      exists before, "/functions/v1/", after. split; [now left | reflexivity].
  - intros [before [endpoint [after [Hin ->]]]].
    now apply isApiRequest_contains.
Qed.

(** X2. [isStaticAsset] holds exactly for the paths that end in one of the
    twelve extensions, dot included and in lower case as listed; an
    extension followed by anything else does not count. *)
Theorem isStaticAsset_iff (pathname : string) :
  isStaticAsset pathname = true <->
  exists before ext, In ext STATIC_EXTENSIONS /\ pathname = before +:+ ext.
Proof.
  split.
  - unfold isStaticAsset. intros H.
    apply existsb_exists in H as [ext [Hin Hends]].
    destruct (endsWith_inv _ _ Hends) as [before ->].
    exists before, ext. split; [exact Hin | reflexivity].
  - intros [before [ext [Hin ->]]]. now apply isStaticAsset_suffix.
Qed.

(** ** The static-asset strategy, further *)

(** X3. A static-asset request whose key is in the static partition is
    answered with the stored response and nothing else happens: no network
    call is issued, now or later (no revalidation), nothing is written, and
    the answer does not depend on the network. *)
Theorem static_cache_hit (env : Env) (net : Net) (cs : CacheStorage)
    (request : Request) (c : Response) :
  untouched env STATIC_CACHE_NAME request ->
  cache_match STATIC_CACHE_NAME request cs = Some c ->
  let run := serve env net (handleStaticAsset request) cs in
  outcome run = Returned (VResponse c) /\
  trace (final run) =
    [ (Handler, EvOpen STATIC_CACHE_NAME);
      (Handler, EvMatch STATIC_CACHE_NAME request (Some c));
      (Handler, EvReturn (VResponse c)) ] /\
  calls (final run) = 0%nat /\
  cache_match STATIC_CACHE_NAME request (storage (final run)) = Some c.
Proof.
  intros Hunt Hc.
  unfold serve, serve_from, serve_on, boot, handleStaticAsset. cbn.
  see_through; rewrite Hc; cbn.
  repeat split. see_through. exact Hc.
Qed.

Lemma static_cache_hit_witness :
  outcome (serve quiet offline (handleStaticAsset mainJsGet)
             (cache_put STATIC_CACHE_NAME mainJsGet scriptBody ∅))
  = Returned (VResponse scriptBody).
Proof.
  apply (static_cache_hit quiet offline
           (cache_put STATIC_CACHE_NAME mainJsGet scriptBody ∅)
           mainJsGet scriptBody).
  - apply quiet_untouched.
  - vm_compute. reflexivity.
Defined.



(** ** The navigation strategy, further *)

(** X5. When the network answers a navigation request, the answer is
    returned as it is, whatever its status, and the cache storage is not
    touched: it is neither opened, read nor written. *)
Theorem navigation_network_success (env : Env) (net : Net) (cs : CacheStorage)
    (request : Request) (resp : Response) :
  net 0%nat request = NetOk resp ->
  let run := serve env net (handleNavigation request) cs in
  outcome run = Returned (VResponse resp) /\
  trace (final run) =
    [ (Handler, EvFetch 0 request);
      (Handler, EvSettle 0 (NetOk resp));
      (Handler, EvReturn (VResponse resp)) ] /\
  no_cache_access (trace (final run)) = true /\
  (forall name key,
      untouched env name key ->
      cache_match name key (storage (final run)) = cache_match name key cs).
Proof.
  intros Hnet.
  unfold serve, serve_from, serve_on, boot, handleNavigation. cbn.
  rewrite Hnet; cbn.
  repeat split.
  intros name key Hframe. see_through. reflexivity.
Qed.

Lemma navigation_network_success_witness :
  outcome (serve quiet (answering notFound) (handleNavigation dashboardGet) ∅)
  = Returned (VResponse notFound).
Proof.
  apply (navigation_network_success quiet (answering notFound) ∅
           dashboardGet notFound).
  reflexivity.
Defined.

(** X6. The navigation handler never calls [cache.put] and issues exactly
    one network call. It never rejects with the error of the network: as
    long as the cache storage does not fail it resolves, and when it
    rejects, the network had failed and the error is that of a cache
    storage operation of the catch block ([caches.open] or the lookup of
    the root URL). *)
Theorem navigation_rejects_only_on_storage_failure (disk : Disk) (env : Env)
    (net : Net) (cs : CacheStorage) (request : Request) :
  let run := serve_on disk env net (handleNavigation request) (boot cs) in
  no_put (trace (final run)) = true /\
  network_calls (trace (final run)) = [(Handler, EvFetch 0 request)] /\
  (never_fails disk -> exists v, outcome run = Returned v) /\
  (forall e, outcome run = Threw e ->
     (exists t, disk t = Some e) /\ exists e0, net 0%nat request = NetErr e0).
Proof.
  unfold serve_on, boot, handleNavigation.
  storage_cases;
    (split; [reflexivity|]; split; [reflexivity|]; split;
     [ intros Hnever;
       first [ eexists; reflexivity
             | match goal with
               | H : disk _ = Some _ |- _ =>
                   rewrite Hnever in H; discriminate H
               end ]
     | intros err Hthrew;
       first [ discriminate Hthrew | injection Hthrew as <-; eauto ] ]).
Qed.

Lemma navigation_rejects_only_on_storage_failure_witness :
  exists v, outcome (serve_on reliable quiet offline
                       (handleNavigation dashboardGet) (boot ∅)) = Returned v.
Proof.
  apply (proj1 (proj2 (proj2 (navigation_rejects_only_on_storage_failure
                                reliable quiet offline ∅ dashboardGet)))).
  intros t. reflexivity.
Defined.

Lemma navigation_failure_with_shell_witness :
  outcome (serve quiet offline (handleNavigation dashboardGet)
             (cache_put STATIC_CACHE_NAME rootRequest scriptBody ∅))
  = Returned (VResponse scriptBody).
Proof.
  apply (navigation_failure_with_shell quiet offline
           (cache_put STATIC_CACHE_NAME rootRequest scriptBody ∅)
           dashboardGet (TypeError "Failed to fetch") scriptBody).
  - reflexivity.
  - apply quiet_untouched.
  - vm_compute. reflexivity.
Defined.

(** ** The API strategy, further *)

(** X8. A failed background refresh stays silent: after a GET cache hit
    whose refresh cannot reach the network, the caller has its cached
    response, the failure is only logged, no promise rejects and the cached
    entry is what it was. *)
Theorem refresh_failure_is_swallowed (env : Env) (net : Net) (cs : CacheStorage)
    (request : Request) (c : Response) (e : Error) :
  method request = "GET" ->
  untouched env API_CACHE_NAME request ->
  cache_match API_CACHE_NAME request cs = Some c ->
  net 0%nat request = NetErr e ->
  let run := serve env net (handleApiRequest request) cs in
  outcome run = Returned (VResponse c) /\
  trace (final run) =
    [ (Handler, EvOpen API_CACHE_NAME);
      (Handler, EvMatch API_CACHE_NAME request (Some c));
      (Detached, EvFetch 0 request);
      (Handler, EvReturn (VResponse c));
      (Detached, EvSettle 0 (NetErr e));
      (Detached, EvLog "Background cache update failed:");
      (Detached, EvReturn VUndefined) ] /\
  no_throw (trace (final run)) = true /\
  cache_match API_CACHE_NAME request (storage (final run)) = Some c.
Proof.
  intros Hget Hunt Hc Hnet.
  unfold serve, serve_from, serve_on, boot, handleApiRequest, updateCacheInBackground.
  rewrite Hget. cbn.
  see_through; rewrite Hc; cbn.
  rewrite Hnet; cbn.
  repeat split. see_through. exact Hc.
Qed.

Lemma refresh_failure_is_swallowed_witness :
  no_throw (trace (final (serve quiet offline (handleApiRequest membersGet)
                            (cache_put API_CACHE_NAME membersGet staleMembers ∅))))
  = true.
Proof.
  pose proof (refresh_failure_is_swallowed quiet offline
                (cache_put API_CACHE_NAME membersGet staleMembers ∅)
                membersGet staleMembers (TypeError "Failed to fetch")
                eq_refl (quiet_untouched _ _) eq_refl eq_refl) as [_ [_ [H _]]].
  exact H.
Defined.



(** X10. On a GET cache miss, an answer whose status is not ok (a 404, a
    500) is handed to the caller as it is and is not stored: the api
    partition still has no entry for the request. *)
Theorem api_miss_non_ok_not_cached (env : Env) (net : Net) (cs : CacheStorage)
    (request : Request) (resp : Response) :
  method request = "GET" ->
  untouched env API_CACHE_NAME request ->
  cache_match API_CACHE_NAME request cs = None ->
  net 0%nat request = NetOk resp ->
  ok resp = false ->
  let run := serve env net (handleApiRequest request) cs in
  outcome run = Returned (VResponse resp) /\
  no_put (trace (final run)) = true /\
  cache_match API_CACHE_NAME request (storage (final run)) = None.
Proof.
  intros Hget Hunt Hnone Hnet Hok.
  unfold serve, serve_from, serve_on, boot, handleApiRequest, fetchFromNetwork.
  rewrite Hget. cbn.
  see_through; rewrite Hnone; cbn.
  rewrite Hnet; cbn. rewrite Hok; cbn.
  repeat split. see_through. exact Hnone.
Qed.

Lemma api_miss_non_ok_not_cached_witness :
  outcome (serve quiet (answering notFound) (handleApiRequest membersGet) ∅)
    = Returned (VResponse notFound) /\
  cache_match API_CACHE_NAME membersGet
    (storage (final (serve quiet (answering notFound)
                       (handleApiRequest membersGet) ∅))) = None.
Proof.
  pose proof (api_miss_non_ok_not_cached quiet (answering notFound) ∅
                membersGet notFound
                eq_refl (quiet_untouched _ _) eq_refl eq_refl eq_refl)
    as [H1 [_ H2]].
  split; [exact H1 | exact H2].
Defined.

(** X11. An API request reaches the network exactly once, provided
    [caches.open] and, for a GET, the first lookup succeed: on a GET cache
    hit the call is issued by the detached refresh and the handler issues
    none; on a miss, and for any other method, it is issued by the handler.
    When [caches.open] fails the handler rejects with that failure and the
    network is not called at all. *)
Theorem api_one_network_call (disk : Disk) (env : Env) (net : Net)
    (cs : CacheStorage) (request : Request) :
  let run := serve_on disk env net (handleApiRequest request) (boot cs) in
  (forall e, disk 0%nat = Some e ->
     outcome run = Threw e /\ network_calls (trace (final run)) = []) /\
  (disk 0%nat = None -> disk 1%nat = None ->
   untouched env API_CACHE_NAME request ->
   calls (final run) = 1%nat /\
   network_calls (trace (final run)) =
     [ (if String.eqb (method request) "GET"
        then match cache_match API_CACHE_NAME request cs with
             | Some _ => Detached
             | None => Handler
             end
        else Handler,
        EvFetch 0 request) ]).
Proof.
  unfold serve_on, boot, handleApiRequest, fetchFromNetwork,
    updateCacheInBackground.
  split.
  - intros e He. cbn. unfold do_open. cbn. rewrite He. cbn.
    split; reflexivity.
  - intros H0 H1 Hunt.
    assert (Hseen : cache_match API_CACHE_NAME request
                      (env 1%nat (caches_open API_CACHE_NAME (env 0%nat cs)))
                    = cache_match API_CACHE_NAME request cs)
      by (see_through; reflexivity).
    rewrite <- Hseen. clear Hseen.
    destruct (String.eqb (method request) "GET");
      storage_cases; try congruence; split; reflexivity.
Qed.

Lemma api_one_network_call_witness :
  network_calls
    (trace (final (serve_on reliable quiet (answering membersJson)
                     (handleApiRequest membersGet)
                     (boot (cache_put API_CACHE_NAME membersGet staleMembers ∅)))))
  = [(Detached, EvFetch 0 membersGet)].
Proof.
  exact (proj2 (proj2 (api_one_network_call reliable quiet
                         (answering membersJson)
                         (cache_put API_CACHE_NAME membersGet staleMembers ∅)
                         membersGet)
                  eq_refl eq_refl (quiet_untouched _ _))).
Defined.

(** X12. The API and the static-asset handlers hand the caller either a
    response, or the very error of the network, or the error of a cache
    storage operation that failed: they never resolve to [undefined], and
    while the storage works they never reject when the network
    answered. *)
Theorem api_and_static_outcome (disk : Disk) (env : Env) (net : Net)
    (cs : CacheStorage) (request : Request) :
  let expected (o : Outcome) :=
    (exists r, o = Returned (VResponse r)) \/
    (exists e, o = Threw e /\
               (net 0%nat request = NetErr e \/ exists t, disk t = Some e)) in
  expected
    (outcome (serve_on disk env net (handleApiRequest request) (boot cs))) /\
  expected
    (outcome (serve_on disk env net (handleStaticAsset request) (boot cs))).
Proof.
  cbv zeta. split.
  - unfold serve_on, boot, handleApiRequest, fetchFromNetwork,
      updateCacheInBackground.
    destruct (String.eqb (method request) "GET"); storage_cases;
      solve [ left; eexists; reflexivity
            | right; eexists; split; [reflexivity | eauto] ].
  - unfold serve_on, boot, handleStaticAsset.
    storage_cases;
      solve [ left; eexists; reflexivity
            | right; eexists; split; [reflexivity | eauto] ].
Qed.

(** ** What serving a request leaves alone *)

Lemma put_elsewhere (name name' : string) (key request : Request) :
  key <> request \/ name <> name' -> (name', request) <> (name, key).
Proof. intros [H|H] Heq; injection Heq as Hn Hk; congruence. Qed.

(** X13. Serving a request only ever changes the entry under that very
    request, in the api or the static partition: every other entry the
    other tasks leave alone reads after the event as it did before. *)
Theorem onFetch_frame (env : Env) (net : Net) (cs : CacheStorage)
    (pathname : string) (request : Request) (name : string) (key : Request) :
  key <> request \/ (name <> API_CACHE_NAME /\ name <> STATIC_CACHE_NAME) ->
  untouched env name key ->
  cache_match name key
    (storage (final (serve env net (onFetch pathname request) cs)))
  = cache_match name key cs.
Proof.
  intros Hother Hunt.
  assert (Hapi : (API_CACHE_NAME, request) <> (name, key))
    by (apply put_elsewhere; tauto).
  assert (Hstatic : (STATIC_CACHE_NAME, request) <> (name, key))
    by (apply put_elsewhere; tauto).
  unfold onFetch. destruct (classify pathname).
  - unfold serve, serve_from, serve_on, boot, handleApiRequest, fetchFromNetwork,
      updateCacheInBackground.
    destruct (String.eqb (method request) "GET"); all_cases;
      rewrite ?(cache_match_put_other _ _ _ _ _ _ Hapi);
      see_through; reflexivity.
  - unfold serve, serve_from, serve_on, boot, handleStaticAsset.
    all_cases;
      rewrite ?(cache_match_put_other _ _ _ _ _ _ Hstatic);
      see_through; reflexivity.
  - unfold serve, serve_from, serve_on, boot, handleNavigation.
    all_cases; see_through; reflexivity.
Qed.

Lemma onFetch_frame_witness :
  cache_match API_CACHE_NAME membersGet
    (storage (final (serve quiet (answering scriptBody)
                       (onFetch "/main.js" mainJsGet)
                       (cache_put API_CACHE_NAME membersGet staleMembers ∅))))
  = Some staleMembers.
Proof.
  rewrite (onFetch_frame quiet (answering scriptBody)
             (cache_put API_CACHE_NAME membersGet staleMembers ∅)
             "/main.js" mainJsGet API_CACHE_NAME membersGet).
  - vm_compute. reflexivity.
  - left. discriminate.
  - apply quiet_untouched.
Defined.

(** ** The api partition holds GET requests only *)

Lemma get_only_open (name name' : string) (cs : CacheStorage) :
  get_only name cs -> get_only name (caches_open name' cs).
Proof. intros H key r. rewrite cache_entry_open. apply H. Qed.

Lemma get_only_put_get (name name' : string) (key : Request) (r : Response)
    (cs : CacheStorage) :
  method key = "GET" -> get_only name cs ->
  get_only name (cache_put name' key r cs).
Proof.
  intros Hget H key' r'.
  destruct (decide ((name', key) = (name, key'))) as [Heq|Hne].
  - injection Heq as -> ->. intros _. exact Hget.
  - rewrite cache_entry_put_other by exact Hne. apply H.
Qed.


Ltac keep_get_only :=
  repeat first
    [ assumption
    | apply get_only_open
    | match goal with
      | H : keeps_get_only _ _ |- get_only _ (_ _ _) => apply H
      end ].


Lemma quiet_keeps_get_only (name : string) : keeps_get_only quiet name.
Proof. intros t cs H. exact H. Qed.

Lemma get_only_empty (name : string) : get_only name ∅.
Proof.
  intros key r H. unfold cache_entry in H.
  rewrite lookup_empty in H. discriminate H.
Qed.


(** X15. While the api partition holds GET keys only, an API request that
    is not a GET and whose network fetch fails ends with the very error of
    the network: the lookup of the catch block finds nothing to fall back
    on. *)
Theorem api_non_get_failure_propagates (env : Env) (net : Net)
    (cs : CacheStorage) (request : Request) (e : Error) :
  method request <> "GET" ->
  keeps_get_only env API_CACHE_NAME ->
  get_only API_CACHE_NAME cs ->
  net 0%nat request = NetErr e ->
  let run := serve env net (handleApiRequest request) cs in
  outcome run = Threw e /\
  trace (final run) =
    [ (Handler, EvOpen API_CACHE_NAME);
      (Handler, EvFetch 0 request);
      (Handler, EvSettle 0 (NetErr e));
      (Handler, EvMatch API_CACHE_NAME request None);
      (Handler, EvThrow e) ].
Proof.
  intros Hmeth Henv Hcs Hnet.
  pose proof Hmeth as Hm. apply String.eqb_neq in Hm.
  unfold serve, serve_from, serve_on, boot, handleApiRequest, fetchFromNetwork.
  rewrite Hm. cbn. rewrite Hnet. cbn.
  destruct (cache_match API_CACHE_NAME request _) as [c|] eqn:Hfound; cbn.
  - exfalso. apply Hmeth.
    unfold cache_match in Hfound.
    destruct (String.eqb (method request) "GET"); [|discriminate Hfound].
    match type of Hfound with
    | cache_entry _ _ ?st = _ =>
        assert (Hinv : get_only API_CACHE_NAME st) by keep_get_only
    end.
    exact (Hinv request c Hfound).
  - split; reflexivity.
Qed.

Lemma api_non_get_failure_propagates_witness :
  outcome (serve quiet offline (handleApiRequest membersPost)
             (cache_put API_CACHE_NAME membersGet staleMembers ∅))
  = Threw (TypeError "Failed to fetch").
Proof.
  apply (api_non_get_failure_propagates quiet offline
           (cache_put API_CACHE_NAME membersGet staleMembers ∅)
           membersPost (TypeError "Failed to fetch")).
  - vm_compute. discriminate.
  - apply quiet_keeps_get_only.
  - apply get_only_put_get; [reflexivity | apply get_only_empty].
  - reflexivity.
Defined.

(** ** Activation *)

Lemma isOldCache_false (name : string) :
  isOldCache name = false <->
  name = CACHE_NAME \/ name = API_CACHE_NAME \/ name = STATIC_CACHE_NAME.
Proof.
  unfold isOldCache. split.
  - intros H.
    destruct (String.eqb name CACHE_NAME) eqn:E1;
      [apply String.eqb_eq in E1; now left|].
    destruct (String.eqb name API_CACHE_NAME) eqn:E2;
      [apply String.eqb_eq in E2; now right; left|].
    destruct (String.eqb name STATIC_CACHE_NAME) eqn:E3;
      [apply String.eqb_eq in E3; now right; right | discriminate H].
  - intros [ -> | [ -> | -> ] ]; reflexivity.
Qed.

Lemma deleteOld_current (cacheNames : list string) (cs : CacheStorage)
    (name : string) :
  isOldCache name = false -> deleteOld cacheNames cs !! name = cs !! name.
Proof.
  intros Hcur. revert cs.
  induction cacheNames as [|a rest IH]; intros cs; [reflexivity|].
  unfold deleteOld. cbn. fold (deleteOld rest).
  destruct (isOldCache a) eqn:Ha; rewrite IH; [|reflexivity].
  unfold caches_delete. apply lookup_delete_ne. congruence.
Qed.

Lemma deleteOld_absent (cacheNames : list string) (cs : CacheStorage)
    (name : string) :
  cs !! name = None -> deleteOld cacheNames cs !! name = None.
Proof.
  revert cs. induction cacheNames as [|a rest IH]; intros cs H; [exact H|].
  unfold deleteOld. cbn. fold (deleteOld rest).
  destruct (isOldCache a); apply IH; [|exact H].
  unfold caches_delete.
  destruct (decide (a = name)) as [->|Hne].
  - apply lookup_delete_eq.
  - rewrite lookup_delete_ne by exact Hne. exact H.
Qed.

Lemma deleteOld_old (cacheNames : list string) (cs : CacheStorage)
    (name : string) :
  isOldCache name = true -> In name cacheNames ->
  deleteOld cacheNames cs !! name = None.
Proof.
  intros Hold. revert cs.
  induction cacheNames as [|a rest IH]; intros cs Hin; [destruct Hin|].
  unfold deleteOld. cbn. fold (deleteOld rest).
  destruct Hin as [->|Hin].
  - rewrite Hold. apply deleteOld_absent.
    unfold caches_delete. apply lookup_delete_eq.
  - destruct (isOldCache a); now apply IH.
Qed.

Lemma caches_keys_complete (cs : CacheStorage) (name : string) (c : Cache) :
  cs !! name = Some c -> In name (caches_keys cs).
Proof.
  intros H. unfold caches_keys.
  apply in_map_iff. exists (name, c). split; [reflexivity|].
  apply list_elem_of_In. now apply elem_of_map_to_list.
Qed.

Lemma onActivate_lookup_bool (cs : CacheStorage) (name : string) :
  onActivate cs !! name = if isOldCache name then None else cs !! name.
Proof.
  unfold onActivate. destruct (isOldCache name) eqn:Hold.
  - destruct (cs !! name) as [c|] eqn:Hc.
    + apply deleteOld_old; [exact Hold | eapply caches_keys_complete; eauto].
    + now apply deleteOld_absent.
  - now apply deleteOld_current.
Qed.

Lemma cache_match_onActivate (cs : CacheStorage) (name : string) (key : Request) :
  isOldCache name = false ->
  cache_match name key (onActivate cs) = cache_match name key cs.
Proof.
  intros Hcur. unfold cache_match, cache_entry.
  rewrite onActivate_lookup_bool, Hcur. reflexivity.
Qed.

(** X16. Activation deletes exactly the partitions whose name is none of
    the three names of this version: a partition under one of the three
    names is afterwards what it was, entries included, and no partition is
    left under any other name. *)
Theorem onActivate_lookup (cs : CacheStorage) (name : string) :
  (name = CACHE_NAME \/ name = API_CACHE_NAME \/ name = STATIC_CACHE_NAME ->
   onActivate cs !! name = cs !! name) /\
  (name <> CACHE_NAME -> name <> API_CACHE_NAME -> name <> STATIC_CACHE_NAME ->
   onActivate cs !! name = None).
Proof.
  rewrite onActivate_lookup_bool. split.
  - intros H. apply isOldCache_false in H. now rewrite H.
  - intros H1 H2 H3. destruct (isOldCache name) eqn:Hold; [reflexivity|].
    apply isOldCache_false in Hold. tauto.
Qed.

Lemma onActivate_lookup_witness :
  onActivate upgradedStorage !! "radlett-lodge-v0" = None /\
  onActivate upgradedStorage !! API_CACHE_NAME = upgradedStorage !! API_CACHE_NAME.
Proof.
  split.
  - apply (proj2 (onActivate_lookup upgradedStorage "radlett-lodge-v0"));
      discriminate.
  - apply (proj1 (onActivate_lookup upgradedStorage API_CACHE_NAME)).
    right. left. reflexivity.
Defined.

(** X17. Activating twice is the same as activating once, and activation
    changes nothing when every partition already bears one of the three
    current names. *)
Theorem onActivate_idempotent (cs : CacheStorage) :
  onActivate (onActivate cs) = onActivate cs /\
  ((forall name, is_Some (cs !! name) -> isOldCache name = false) ->
   onActivate cs = cs).
Proof.
  split.
  - apply map_eq. intros name. rewrite !onActivate_lookup_bool.
    destruct (isOldCache name); reflexivity.
  - intros Hcur. apply map_eq. intros name. rewrite onActivate_lookup_bool.
    destruct (isOldCache name) eqn:Hold; [|reflexivity].
    destruct (cs !! name) as [c|] eqn:Hc; [|reflexivity].
    rewrite Hcur in Hold by (rewrite Hc; eauto). discriminate Hold.
Qed.

Lemma onActivate_idempotent_witness :
  onActivate (cache_put API_CACHE_NAME membersGet staleMembers ∅)
  = cache_put API_CACHE_NAME membersGet staleMembers ∅.
Proof.
  apply (proj2 (onActivate_idempotent
                  (cache_put API_CACHE_NAME membersGet staleMembers ∅))).
  intros name [c Hc].
  change (cache_put API_CACHE_NAME membersGet staleMembers ∅)
    with (cache_store API_CACHE_NAME membersGet staleMembers ∅) in Hc.
  unfold cache_store in Hc.
  destruct (decide (API_CACHE_NAME = name)) as [<-|Hne]; [reflexivity|].
  rewrite lookup_insert_ne in Hc by exact Hne.
  rewrite lookup_empty in Hc. discriminate Hc.
Defined.

Ltac through_activation :=
  cbn;
  repeat first
    [ rewrite cache_match_open
    | rewrite (cache_match_onActivate _ API_CACHE_NAME) by reflexivity
    | rewrite (cache_match_onActivate _ STATIC_CACHE_NAME) by reflexivity ].

(** X18. Request handling does not see activation: with no other task
    interfering, an event served on the activated storage ends as it would
    have on the storage before activation, with the same trace. *)
Theorem activation_invisible_to_fetch (net : Net) (cs : CacheStorage)
    (pathname : string) (request : Request) :
  let before := serve quiet net (onFetch pathname request) cs in
  let after := serve quiet net (onFetch pathname request) (onActivate cs) in
  outcome after = outcome before /\
  trace (final after) = trace (final before).
Proof.
  cbv zeta. unfold onFetch. destruct (classify pathname).
  - unfold serve, serve_from, serve_on, boot, handleApiRequest, fetchFromNetwork,
      updateCacheInBackground.
    destruct (String.eqb (method request) "GET");
      through_activation; repeat (host_case; through_activation);
      split; reflexivity.
  - unfold serve, serve_from, serve_on, boot, handleStaticAsset.
    through_activation; repeat (host_case; through_activation);
      split; reflexivity.
  - unfold serve, serve_from, serve_on, boot, handleNavigation.
    through_activation; repeat (host_case; through_activation);
      split; reflexivity.
Qed.

(** ** Install, further *)

Lemma all_ok_cons (res : FetchResult) (rest : list FetchResult) :
  all_ok (res :: rest) =
  match res with
  | NetOk r =>
      if addAll_accepts r
      then match all_ok rest with
           | Some rs => Some (r :: rs)
           | None => None
           end
      else None
  | NetErr _ => None
  end.
Proof. reflexivity. Qed.

(** X19. Once an install has succeeded, the site opens offline: with no
    other task interfering, a navigation whose network fetch fails is
    answered with the response the network gave for the root URL at
    install time. *)
Theorem shell_after_install (net net' : Net) (cs : CacheStorage)
    (request : Request) (shell : Response) (e : Error) :
  outcome (serve quiet net onInstall cs) = Returned VUndefined ->
  net 0%nat rootRequest = NetOk shell ->
  (forall id, net' id request = NetErr e) ->
  let installed := final (serve quiet net onInstall cs) in
  cache_match STATIC_CACHE_NAME rootRequest (storage installed) = Some shell /\
  outcome (serve_from quiet net' (handleNavigation request) installed)
    = Returned (VResponse shell).
Proof.
  intros Hdone Hroot Hdown. cbv zeta.
  assert (Hshell : cache_match STATIC_CACHE_NAME rootRequest
                     (storage (final (serve quiet net onInstall cs)))
                   = Some shell).
  { pose proof (install_quiet net (boot cs)) as H. cbv zeta in H.
    change (serve_from quiet net onInstall (boot cs))
      with (serve quiet net onInstall cs) in H.
    change (calls (boot cs)) with 0%nat in H.
    destruct (all_ok (answers net 0 manifestRequests)) as [resps|] eqn:Hall.
    - destruct H as [_ ->].
      apply puts_lookup;
        [ apply NoDup_keys_combine, manifestRequests_NoDup
        | exact (manifest_entries_accepted _ _ Hall) |].
      unfold manifestRequests, urlsToCache in Hall. cbn [map answers] in Hall.
      change (mkRequest "GET" "/") with rootRequest in Hall.
      rewrite all_ok_cons, Hroot in Hall.
      destruct (addAll_accepts shell); [|discriminate Hall].
      destruct (all_ok _) as [rs|]; [|discriminate Hall].
      injection Hall as <-. left. reflexivity.
    - destruct H as [Hthrew _]. rewrite Hthrew in Hdone. discriminate Hdone. }
  split; [exact Hshell|].
  revert Hshell.
  generalize (final (serve quiet net onInstall cs)) as installed.
  intros installed Hshell.
  unfold serve_from, serve_on, handleNavigation. cbn.
  rewrite Hdown. cbn.
  rewrite cache_match_open. unfold quiet.
  rewrite Hshell. reflexivity.
Qed.

Lemma shell_after_install_witness :
  outcome (serve_from quiet offline (handleNavigation dashboardGet)
             (final (serve quiet (answering scriptBody) onInstall ∅)))
  = Returned (VResponse scriptBody).
Proof.
  apply (shell_after_install (answering scriptBody) offline ∅ dashboardGet
           scriptBody (TypeError "Failed to fetch")).
  - vm_compute. reflexivity.
  - reflexivity.
  - intros id. reflexivity.
Defined.

Lemma puts_other_partition (name name' : string) (key : Request)
    (entries : list (Request * Response)) (cs : CacheStorage) :
  name' <> name ->
  cache_match name key (puts name' entries cs) = cache_match name key cs.
Proof.
  intros Hne. revert cs.
  induction entries as [|[k r] rest IH]; intros cs; [reflexivity|].
  unfold puts. cbn. fold (puts name' rest (cache_put name' k r cs)).
  rewrite IH. apply cache_match_put_other. congruence.
Qed.

(** X20. Install opens both partitions whatever comes of the manifest and
    never writes to the api partition; an install that rejects leaves every
    entry of the storage as it was. *)
Theorem install_leaves_api_alone (net : Net) (cs : CacheStorage) :
  let run := serve quiet net onInstall cs in
  opened STATIC_CACHE_NAME (storage (final run)) /\
  opened API_CACHE_NAME (storage (final run)) /\
  (forall key,
      cache_match API_CACHE_NAME key (storage (final run))
      = cache_match API_CACHE_NAME key cs) /\
  (forall e, outcome run = Threw e ->
      forall name key,
        cache_match name key (storage (final run)) = cache_match name key cs).
Proof.
  cbv zeta.
  pose proof (install_quiet net (boot cs)) as H. cbv zeta in H.
  change (serve_from quiet net onInstall (boot cs))
    with (serve quiet net onInstall cs) in H.
  change (storage (boot cs)) with cs in H.
  destruct (all_ok _) as [resps|]; destruct H as [Hout Hst]; rewrite Hst, Hout.
  - split; [apply opened_puts, opened_open_other, opened_open|].
    split; [apply opened_puts, opened_open|].
    split.
    + intros key.
      rewrite puts_other_partition by discriminate.
      rewrite !cache_match_open. reflexivity.
    + intros e Habs. discriminate Habs.
  - split; [apply opened_open_other, opened_open|].
    split; [apply opened_open|].
    split.
    + intros key. rewrite !cache_match_open. reflexivity.
    + intros e _ name key. rewrite !cache_match_open. reflexivity.
Qed.
